(** * BgRemover: a shallow embedding of [app.py]

    The program is a Streamlit page: an uploaded file is checked against a
    size limit, decoded with PIL, scaled down when one of its sides exceeds
    [MAX_IMAGE_SIZE], handed to rembg's [remove], and the two rasters are
    displayed together with a download button.

    The embedding has three layers.
    - [Py]: the Python numbers the resizer computes with.  [int] is [Z];
      [float] is IEEE-754 binary64, taken from the Standard Library's
      executable specification [SpecFloat]; [/], [*] and [int()] are
      written with the rounding they have in CPython.
    - the resizer [resize_image], a pure function up to the call of PIL's
      resampler;
    - the page handlers [process_image], [fix_image] and the script body, in
      a state-and-exception monad over a [world] that records what the page
      shows, what is printed to the log, which collaborators were invoked,
      the memo table of [st.cache_data] and the wall clock. *)

From Stdlib Require Import ZArith List String Lia Bool QArith Qabs Reals Lra.
From Stdlib Require Import Strings.Byte.
From Stdlib Require Import Floats.SpecFloat.
From stdpp Require Import gmap.

Open Scope string_scope.
Open Scope list_scope.
Open Scope Z_scope.

(** ** Exceptions and fallible computations *)

(** A Python exception that derives from [Exception]: its class name and the
    text [str(e)] gives. *)
Record exn := Exception { exn_class : string; exn_text : string }.

Definition str (e : exn) : string := exn_text e.

Inductive result (A : Type) : Type :=
| Ok (a : A)
| Raise (e : exn).
Arguments Ok {A} a.
Arguments Raise {A} e.

Definition rbind {A B} (r : result A) (k : A -> result B) : result B :=
  match r with
  | Ok a => k a
  | Raise e => Raise e
  end.

Declare Scope result_scope.
Delimit Scope result_scope with result.
Notation "x <- r ;; k" := (rbind r (fun x => k))
  (at level 100, r at next level, right associativity) : result_scope.

(** ** Python numbers *)

Module Py.

(** binary64 *)
Definition prec : Z := 53.
Definition emax : Z := 1024.

Definition float := spec_float.

(** [float(n)] for an [int]: rounded to nearest, ties to even;
    [OverflowError] beyond the largest finite double. *)
Definition float_of_int (n : Z) : result float :=
  match binary_normalize prec emax n 0 false with
  | S754_infinity _ =>
      Raise (Exception "OverflowError" "int too large to convert to float")
  | x => Ok x
  end.

(** [a / b] on two [int]s: the correctly rounded quotient. *)
Definition int_truediv (a b : Z) : result float :=
  if b =? 0 then Raise (Exception "ZeroDivisionError" "division by zero")
  else if a =? 0 then Ok (S754_zero (b <? 0))
  else
    let '(mz, ez, lz) :=
      SFdiv_core_binary prec emax (Z.abs a) 0 (Z.abs b) 0 in
    match binary_round_aux prec emax (xorb (a <? 0) (b <? 0)) mz ez lz with
    | S754_infinity _ =>
        Raise (Exception "OverflowError"
                 "integer division result too large for a float")
    | x => Ok x
    end.

(** [n * x] for an [int] [n] and a [float] [x]: [n] is converted first. *)
Definition int_mul_float (n : Z) (x : float) : result float :=
  (f <- float_of_int n ;;
   Ok (SFmul prec emax f x))%result.

(** [int(x)]: truncation toward zero. *)
Definition int_of_float (x : float) : result Z :=
  match x with
  | S754_zero _ => Ok 0
  | S754_finite s m e => Ok (cond_Zopp s (Z.shiftl (Zpos m) e))
  | S754_infinity _ =>
      Raise (Exception "OverflowError"
               "cannot convert float infinity to integer")
  | S754_nan =>
      Raise (Exception "ValueError" "cannot convert float NaN to integer")
  end.

(** [x - y] on floats. *)
Definition float_sub (x y : float) : float := SFsub prec emax x y.

End Py.

(** ** Rasters and uploaded files *)

Definition bytes := list byte.

(** A PIL image: [size] is the pair (width, height); the pixel buffer is
    kept as raw bytes. *)
Record Image := { size : Z * Z; pixels : bytes }.

(** ** Constants (app.py, lines 20-21) *)

Definition MAX_FILE_SIZE : Z := 10 * 1024 * 1024.
Definition MAX_IMAGE_SIZE : Z := 2000.

(** ** The resizer (app.py, lines 30-41) *)

(** [int(side * (max_size / other))], the expression of lines 37 and 40. *)
Definition scale_side (side max_size other : Z) : result Z :=
  (ratio <- Py.int_truediv max_size other ;;
   scaled <- Py.int_mul_float side ratio ;;
   Py.int_of_float scaled)%result.

(** The pair [(new_width, new_height)] computed by lines 35-40. *)
Definition new_size (width height max_size : Z) : result (Z * Z) :=
  if width >? height then
    (let new_width := max_size in
     new_height <- scale_side height max_size width ;;
     Ok (new_width, new_height))%result
  else
    (let new_height := max_size in
     new_width <- scale_side width max_size height ;;
     Ok (new_width, new_height))%result.

Section Resizer.

(** [image.resize(size, Image.LANCZOS)], PIL's resampler. *)
Variable Image_resize : Image -> Z * Z -> result Image.

Definition resize_image (image : Image) (max_size : Z) : result Image :=
  let '(width, height) := size image in
  if (width <=? max_size) && (height <=? max_size) then Ok image
  else
    (sz <- new_size width height max_size ;;
     Image_resize image sz)%result.

End Resizer.

(** ** The page *)

(** What the libraries outside the repository do during one run of the
    script: PIL, rembg, Streamlit's image element and the clock.  A call
    either returns or raises.  A run invokes each of them once (the image
    element twice: on the original and on the result), so its outcome is
    given as a function of the argument; the outcome is not determined by the argument alone (the text of a
    decoding error names an object of the run, the removal model needs its
    weights, the network and memory), so another run may meet other
    collaborators: statements that span two runs take one record per run. *)
Record Collaborators := {
  (** [Image.open(BytesIO(image_bytes)).convert("RGBA")] *)
  Image_open : bytes -> result Image;
  (** [image.resize(size, Image.LANCZOS)] *)
  Image_resize : Image -> Z * Z -> result Image;
  (** rembg's [remove] *)
  remove : Image -> result Image;
  (** [img.save(buf, format="PNG")] followed by [buf.getvalue()] *)
  Image_save_png : Image -> result bytes;
  (** [col.image(image, caption=..., use_container_width=True)]: Streamlit
      lays the raster out, or raises *)
  st_image : Image -> result unit;
  (** the successive readings of [time.time()] *)
  time_time : nat -> Py.float
}.

(** A file handed over by [st.sidebar.file_uploader]. *)
Record UploadedFile := { file_name : string; file_data : bytes }.

Definition getvalue (f : UploadedFile) : bytes := file_data f.

(** [uploaded.size]: the number of bytes of the upload. *)
Definition file_size (f : UploadedFile) : Z := Zlength (file_data f).

(** The text of the status placeholder: a fixed message, or the closing
    message [f"... Completed in {seconds:.2f} seconds"]. *)
Inductive text :=
| Msg (s : string)
| Completed_in (seconds : Py.float).

(** What a run puts on the page, and what it prints.  [Print_traceback] is
    [print(traceback.format_exc())]: it goes to the standard output of the
    server process, not to the page. *)
Inductive event :=
| St_error (msg : string)
| St_info (msg : string)
| Sidebar_error (msg : string)
| Sidebar_progress (value : Z)
| Progress (value : Z)
| Status_text (msg : text)
| Col_image (col : nat) (image : Image) (caption : string)
| Download_button (label : string) (data : bytes) (file_name mime : string)
| Print_traceback (e : exn).

Definition on_page (ev : event) : bool :=
  match ev with
  | Print_traceback _ => false
  | _ => true
  end.

(** The stages of the pipeline a run may invoke. *)
Inductive stage := Decode | Resize | Remove | Encode.

(** What [process_image] returns: [(image, result)] or [(None, None)]. *)
Definition pair_of_images : Type := option Image * option Image.

#[global] Instance byte_eq_dec : EqDecision byte := Byte.byte_eq_dec.
#[global] Instance byte_countable : Countable byte :=
  inj_countable Byte.to_N Byte.of_N Byte.of_to_N.

(** The state a run works on: the events so far (oldest first), the stages
    invoked so far, the memo table of [st.cache_data] (per key, the value
    returned and the page elements to replay) and the number of clock
    readings taken. *)
Record world := {
  shown : list event;
  calls : list stage;
  memo : gmap bytes (pair_of_images * list event);
  ticks : nat
}.

Definition empty_world : world :=
  {| shown := []; calls := []; memo := ∅; ticks := 0 |}.

(** A statement of the page: it changes the world, and returns or raises. *)
Definition M (A : Type) : Type := world -> result A * world.

Definition ret {A} (a : A) : M A := fun w => (Ok a, w).

Definition bind {A B} (m : M A) (k : A -> M B) : M B :=
  fun w =>
    match m w with
    | (Ok a, w') => k a w'
    | (Raise e, w') => (Raise e, w')
    end.

(** [try: m except Exception as e: handler e] *)
Definition try_except {A} (m : M A) (handler : exn -> M A) : M A :=
  fun w =>
    match m w with
    | (Ok a, w') => (Ok a, w')
    | (Raise e, w') => handler e w'
    end.

Declare Scope page_scope.
Delimit Scope page_scope with page.
Notation "x <- m ;; k" := (bind m (fun x => k))
  (at level 100, m at next level, right associativity) : page_scope.
Notation "m ;; k" := (bind m (fun _ => k))
  (at level 100, right associativity) : page_scope.

(** Adding an element whose arguments are literals or values already built
    (progress bars, status and error messages, the download button, the
    printed traceback): the element is appended and the call returns.  The
    image element inspects a raster and can raise: it is [col_image]
    below. *)
Definition emit (ev : event) : M unit :=
  fun w =>
    (Ok tt, {| shown := shown w ++ [ev]; calls := calls w;
               memo := memo w; ticks := ticks w |}).

(** Invoking a stage: the invocation is recorded, its outcome passed on. *)
Definition call {A} (st : stage) (outcome : result A) : M A :=
  fun w =>
    (outcome, {| shown := shown w; calls := calls w ++ [st];
                 memo := memo w; ticks := ticks w |}).

(** A step that returns or raises and leaves the world as it is. *)
Definition lift {A} (outcome : result A) : M A :=
  fun w => (outcome, w).

Section Page.

Variable C : Collaborators.

Definition read_clock : M Py.float :=
  fun w =>
    (Ok (time_time C (ticks w)),
     {| shown := shown w; calls := calls w;
        memo := memo w; ticks := S (ticks w) |}).

(** app.py, lines 24-28 *)
Definition convert_image (img : Image) : result bytes :=
  Image_save_png C img.

(** The body of [process_image] (app.py, lines 45-52). *)
Definition process_image_body (image_bytes : bytes) : M pair_of_images :=
  try_except
    (image <- call Decode (Image_open C image_bytes) ;;
     resized <- call Resize
                  (resize_image (Image_resize C) image MAX_IMAGE_SIZE) ;;
     result <- call Remove (remove C resized) ;;
     ret (Some image, Some result))%page
    (fun e =>
       (emit (St_error (String.append "Image processing error: " (str e))) ;;
        ret (None, None))%page).

(** [@st.cache_data]: a call with a key already in the memo table returns
    the stored value and replays the page elements recorded with it,
    without running the body; otherwise the body runs and, when it
    returns, the value and the elements it emitted are stored. *)
Definition st_cache_data (body : bytes -> M pair_of_images)
    (key : bytes) : M pair_of_images :=
  fun w =>
    match memo w !! key with
    | Some (value, elements) =>
        (Ok value,
         {| shown := shown w ++ elements; calls := calls w;
            memo := memo w; ticks := ticks w |})
    | None =>
        match body key w with
        | (Ok value, w') =>
            (Ok value,
             {| shown := shown w'; calls := calls w';
                memo := <[key := (value,
                                  drop (length (shown w)) (shown w'))]>
                          (memo w');
                ticks := ticks w' |})
        | (Raise e, w') => (Raise e, w')
        end
    end.

(** app.py, lines 43-52 *)
Definition process_image : bytes -> M pair_of_images :=
  st_cache_data process_image_body.

(** [col.image(image, caption=caption, use_container_width=True)]
    (app.py, lines 75-76): the raster appears on the page when Streamlit
    accepts it; otherwise the call raises and nothing is added. *)
Definition col_image (col : nat) (image : Image) (caption : string)
  : M unit :=
  (lift (st_image C image) ;;
   emit (Col_image col image caption))%page.

(** app.py, lines 54-91 *)
Definition fix_image (uploaded_file : UploadedFile) : M unit :=
  try_except
    (start <- read_clock ;;
     emit (Sidebar_progress 0) ;;
     emit (Status_text (Msg "🔄 Reading image...")) ;;
     emit (Progress 10) ;;
     let image_bytes := getvalue uploaded_file in
     emit (Status_text (Msg "⚙️ Processing image...")) ;;
     emit (Progress 30) ;;
     images <- process_image image_bytes ;;
     match images with
     | (Some original, Some removed) =>
         emit (Progress 90) ;;
         emit (Status_text (Msg "📸 Displaying result...")) ;;
         col_image 1 original "Original Image" ;;
         col_image 2 removed "Background Removed" ;;
         data <- call Encode (convert_image removed) ;;
         emit (Download_button "⬇️ Download Output (PNG)" data
                 "removed_background.png" "image/png") ;;
         emit (Progress 100) ;;
         stop <- read_clock ;;
         emit (Status_text (Completed_in (Py.float_sub stop start)))
     | _ => ret tt
     end)%page
    (fun e =>
       (emit (St_error "An unexpected error occurred.") ;;
        emit (Sidebar_error "⚠️ Processing failed.") ;;
        emit (Print_traceback e))%page).

(** app.py, lines 105-111: what the script does with the value of the
    file uploader. *)
Definition script (uploaded : option UploadedFile) : M unit :=
  match uploaded with
  | Some uploaded =>
      if file_size uploaded >? MAX_FILE_SIZE then
        emit (St_error
                "File too large. Please upload an image smaller than 10MB.")
      else fix_image uploaded
  | None => emit (St_info "👈 Upload an image from the sidebar to begin.")
  end.

(** What the body of [process_image] returns, emits and invokes for a
    key, read off a run from the empty world. *)
Definition body_value (image_bytes : bytes) : result pair_of_images :=
  fst (process_image_body image_bytes empty_world).
Definition body_events (image_bytes : bytes) : list event :=
  shown (snd (process_image_body image_bytes empty_world)).
Definition body_calls (image_bytes : bytes) : list stage :=
  calls (snd (process_image_body image_bytes empty_world)).

(** What [fix_image] emits before it calls [process_image]. *)
Definition prelude : list event :=
  [Sidebar_progress 0; Status_text (Msg "🔄 Reading image..."); Progress 10;
   Status_text (Msg "⚙️ Processing image..."); Progress 30].

(** What the [except] clause of [fix_image] emits for [e]. *)
Definition failure_report (e : exn) : list event :=
  [St_error "An unexpected error occurred.";
   Sidebar_error "⚠️ Processing failed.";
   Print_traceback e].

(** What [fix_image] emits once [process_image] has returned [images],
    in a run started in world [w]. *)
Definition epilogue (w : world) (images : result pair_of_images)
  : list event :=
  match images with
  | Ok (Some original, Some removed) =>
      [Progress 90; Status_text (Msg "📸 Displaying result...")] ++
      match st_image C original with
      | Raise e => failure_report e
      | Ok _ =>
          Col_image 1 original "Original Image" ::
          match st_image C removed with
          | Raise e => failure_report e
          | Ok _ =>
              Col_image 2 removed "Background Removed" ::
              match convert_image removed with
              | Ok data =>
                  [Download_button "⬇️ Download Output (PNG)" data
                     "removed_background.png" "image/png";
                   Progress 100;
                   Status_text
                     (Completed_in
                        (Py.float_sub (time_time C (S (ticks w)))
                           (time_time C (ticks w))))]
              | Raise e => failure_report e
              end
          end
      end
  | Ok _ => []
  | Raise e => failure_report e
  end.

(** The stages [fix_image] invokes once [process_image] has returned
    [images]: the encoder, when both rasters have been displayed. *)
Definition epilogue_calls (images : result pair_of_images) : list stage :=
  match images with
  | Ok (Some original, Some removed) =>
      match st_image C original, st_image C removed with
      | Ok _, Ok _ => [Encode]
      | _, _ => []
      end
  | _ => []
  end.

End Page.

(** ** Observations on a run *)

(** The events a run added to the page and the log. *)
Definition new_events (before after : world) : list event :=
  drop (length (shown before)) (shown after).

(** The stages a run invoked. *)
Definition new_calls (before after : world) : list stage :=
  drop (length (calls before)) (calls after).

(** The values the progress bar was given, in order. *)
Definition progress_values (evs : list event) : list Z :=
  omap (fun ev =>
          match ev with
          | Sidebar_progress v | Progress v => Some v
          | _ => None
          end) evs.

Fixpoint increasing (l : list Z) : Prop :=
  match l with
  | [] => True
  | x :: l' =>
      match l' with
      | [] => True
      | y :: _ => x < y /\ increasing l'
      end
  end.

(** Every entry of the memo table is what the body returns and emits for its
    key: the table only holds results of earlier runs. *)
Definition memo_ok (C : Collaborators) (w : world) : Prop :=
  forall key value elements,
    memo w !! key = Some (value, elements) ->
    forall w0,
      fst (process_image_body C key w0) = Ok value /\
      new_events w0 (snd (process_image_body C key w0)) = elements.

(** The world a run leaves when it adds [evs] and [cs]. *)
Definition extend (w : world) (evs : list event) (cs : list stage) : world :=
  {| shown := shown w ++ evs; calls := calls w ++ cs;
     memo := memo w; ticks := ticks w |}.

(** The partial output of a run: a displayed raster or the download
    button. *)
Definition is_output (ev : event) : bool :=
  match ev with
  | Col_image _ _ _ | Download_button _ _ _ _ => true
  | _ => false
  end.

(** ** The resizer as the specification words it *)

(** [a / b] rounded to the nearest integer. *)
Definition nearest_quotient (a b : Z) : Z := (2 * a + b) / (2 * b).

(** "Scale the longer side down to exactly M and scale the shorter side by
    the same ratio, rounded to the nearest integer." *)
Definition Resizer_size (width height M : Z) : Z * Z :=
  if width >? height then (M, nearest_quotient (height * M) width)
  else (nearest_quotient (width * M) height, M).

(** "|newWidth/newHeight - width/height|" *)
Definition aspect_change (width height new_width new_height : Z) : Q :=
  Qabs (inject_Z new_width / inject_Z new_height
        - inject_Z width / inject_Z height).

(** [n] is [side * max_size / other] truncated, or one less than it when
    that quotient is an integer. *)
Definition truncated_scale (side max_size other n : Z) : Prop :=
  n = side * max_size / other \/
  (n = side * max_size / other - 1 /\ (side * max_size) mod other = 0).

(** ** Real values of doubles *)

Definition bpow (e : Z) : R := powerRZ 2 e.

(** The real number the finite double [m * 2^e] stands for. *)
Definition F2R (m e : Z) : R := (IZR m * bpow e)%R.

(** [2^-52], the relative distance of two neighbouring doubles. *)
Definition eps : R := (/ IZR (2 ^ 52))%R.

(** ** Stand-ins for the collaborators *)

Module Demo.

Definition unidentified : exn :=
  Exception "UnidentifiedImageError" "cannot identify image file".

Definition out_of_memory : exn :=
  Exception "RuntimeError" "out of memory".

(** A toy codec: the first two bytes are the width and the height, the
    rest is the pixel buffer. *)
Definition decode (b : bytes) : result Image :=
  match b with
  | w :: h :: px =>
      Ok {| size := (Z.of_N (Byte.to_N w), Z.of_N (Byte.to_N h));
            pixels := px |}
  | _ => Raise unidentified
  end.

Definition resize (image : Image) (sz : Z * Z) : result Image :=
  Ok {| size := sz; pixels := pixels image |}.

Definition clock (n : nat) : Py.float :=
  binary_normalize Py.prec Py.emax (Z.of_nat n) 0 false.

Definition working : Collaborators :=
  {| Image_open := decode;
     Image_resize := resize;
     remove := fun image => Ok image;
     Image_save_png := fun image => Ok (pixels image);
     st_image := fun _ => Ok tt;
     time_time := clock |}.

Definition failing_model : Collaborators :=
  {| Image_open := decode;
     Image_resize := resize;
     remove := fun _ => Raise out_of_memory;
     Image_save_png := fun image => Ok (pixels image);
     st_image := fun _ => Ok tt;
     time_time := clock |}.

Definition small_png : UploadedFile :=
  {| file_name := "small.png"; file_data := [x02; x01; xff; x00] |}.

Definition not_an_image : UploadedFile :=
  {| file_name := "notes.png"; file_data := [x68] |}.

Definition oversized : UploadedFile :=
  {| file_name := "huge.png";
     file_data := repeat x00 (Z.to_nat (MAX_FILE_SIZE + 1)) |}.

Definition raster (width height : Z) : Image :=
  {| size := (width, height); pixels := [] |}.

(** What [decode] makes of [small_png]. *)
Definition small_raster : Image :=
  {| size := (2, 1); pixels := [xff; x00] |}.

Definition disk_full : exn := Exception "OSError" "No space left on device".


Definition failing_encoder : Collaborators :=
  {| Image_open := decode;
     Image_resize := resize;
     remove := fun image => Ok image;
     Image_save_png := fun _ => Raise disk_full;
     st_image := fun _ => Ok tt;
     time_time := clock |}.

(** A codec for larger rasters: width and height on two bytes each, most
    significant first. *)
Definition decode_wide (b : bytes) : result Image :=
  match b with
  | w1 :: w0 :: h1 :: h0 :: px =>
      Ok {| size := (256 * Z.of_N (Byte.to_N w1) + Z.of_N (Byte.to_N w0),
                     256 * Z.of_N (Byte.to_N h1) + Z.of_N (Byte.to_N h0));
            pixels := px |}
  | _ => Raise unidentified
  end.

Definition empty_size : exn :=
  Exception "ValueError" "height and width must be > 0".

(** A resampler that refuses a size with a side below 1. *)
Definition strict_resize (image : Image) (sz : Z * Z) : result Image :=
  if (fst sz <? 1) || (snd sz <? 1) then Raise empty_size
  else Ok {| size := sz; pixels := pixels image |}.

Definition strict : Collaborators :=
  {| Image_open := decode_wide;
     Image_resize := strict_resize;
     remove := fun image => Ok image;
     Image_save_png := fun image => Ok (pixels image);
     st_image := fun _ => Ok tt;
     time_time := clock |}.

Definition cannot_lay_out : exn :=
  Exception "ValueError" "image cannot be laid out".

(** An image element that refuses a raster less than 2 pixels high. *)
Definition narrow_display : Collaborators :=
  {| Image_open := decode_wide;
     Image_resize := strict_resize;
     remove := fun image => Ok image;
     Image_save_png := fun image => Ok (pixels image);
     st_image := fun image =>
                   if snd (size image) <? 2 then Raise cannot_lay_out
                   else Ok tt;
     time_time := clock |}.

(** A 2001 x 2 raster in the format of [decode_wide], and what it is
    resized to. *)
Definition flat_png : UploadedFile :=
  {| file_name := "strip.png"; file_data := [x07; xd1; x00; x02] |}.

Definition flat_raster : Image :=
  {| size := (2001, 2); pixels := [] |}.

Definition flat_resized : Image :=
  {| size := (2000, 1); pixels := [] |}.

(** A 2001 x 1 raster in the format of [decode_wide]. *)
Definition thin_png : UploadedFile :=
  {| file_name := "line.png"; file_data := [x07; xd1; x00; x01] |}.

Definition thin_raster : Image :=
  {| size := (2001, 1); pixels := [] |}.

End Demo.

(** ** Further observations on a run *)

Definition is_error (ev : event) : bool :=
  match ev with
  | St_error _ => true
  | _ => false
  end.

(** The run closed with the completion message. *)
Definition is_completion (ev : event) : bool :=
  match ev with
  | Status_text (Completed_in _) => true
  | _ => false
  end.

(** * Properties *)

(** ** Runs of the resizer on given sizes *)

Example new_size_3000_1999 :
  new_size 3000 1999 2000 = Ok (2000, 1332).
Proof. vm_compute. reflexivity. Qed.

Example new_size_2105_square :
  new_size 2105 2105 2000 = Ok (1999, 2000).
Proof. vm_compute. reflexivity. Qed.

Example new_size_2001_1 :
  new_size 2001 1 2000 = Ok (2000, 0).
Proof. vm_compute. reflexivity. Qed.

(** ** Double-precision arithmetic *)

Section Binary64.

(** *** Digits, shifts and rounding *)

Lemma digits2_pos_size (p : positive) : digits2_pos p = Pos.size p.
Proof. induction p; simpl; congruence. Qed.

Lemma Zdigits2_bounds (m : Z) :
  0 < m -> 2 ^ (Zdigits2 m - 1) <= m < 2 ^ Zdigits2 m.
Proof.
  destruct m as [|p|p]; try lia. intros _. simpl Zdigits2.
  rewrite digits2_pos_size.
  pose proof (Pos.size_gt p) as Hgt. pose proof (Pos.size_le p) as Hle.
  apply Pos2Z.pos_lt_pos in Hgt. apply Pos2Z.pos_le_pos in Hle.
  rewrite Pos2Z.inj_pow in Hgt, Hle.
  split; [|exact Hgt].
  assert (Hs : 2 ^ Z.pos (Pos.size p) = 2 * 2 ^ (Z.pos (Pos.size p) - 1)).
  { rewrite <- Z.pow_succ_r by lia. f_equal. lia. }
  rewrite Hs in Hle. change (Z.pos p~0) with (2 * Z.pos p) in Hle. lia.
Qed.

Lemma Zdigits2_unique (m k : Z) :
  0 < m -> 2 ^ (k - 1) <= m < 2 ^ k -> Zdigits2 m = k.
Proof.
  intros Hm [Hlo Hhi]. pose proof (Zdigits2_bounds m Hm) as [Hl Hh].
  assert (Hd : 0 < Zdigits2 m) by (destruct m; simpl; lia).
  assert (Hk : 0 < k).
  { destruct (Z_lt_le_dec 0 k) as [|Hk0]; [assumption|].
    destruct (Z.eq_dec k 0) as [->|]; [simpl in Hhi; lia|].
    rewrite Z.pow_neg_r in Hhi by lia. lia. }
  assert (k - 1 < Zdigits2 m).
  { apply (Z.pow_lt_mono_r_iff 2); lia. }
  assert (Zdigits2 m - 1 < k).
  { apply (Z.pow_lt_mono_r_iff 2); lia. }
  lia.
Qed.

(** An [int] below [2^53] has at most 53 digits. *)
Lemma Zdigits2_range (n : Z) :
  0 < n < 2 ^ 53 -> 1 <= Zdigits2 n <= 53.
Proof.
  intros [Hn0 Hn]. pose proof (Zdigits2_bounds n Hn0) as [Hlo _].
  split; [destruct n; simpl; lia|].
  assert (Zdigits2 n - 1 < 53); [|lia].
  apply (Z.pow_lt_mono_r_iff 2); lia.
Qed.

Lemma shr_m_shr_1 (r : shr_record) :
  0 <= shr_m r -> shr_m (shr_1 r) = shr_m r / 2.
Proof.
  destruct r as [m rb sb]. simpl. intros Hm.
  rewrite <- Z.div2_div.
  destruct m as [|[p|p|]|p]; simpl; try reflexivity; lia.
Qed.

Lemma shr_m_iter (p : positive) : forall r : shr_record,
  0 <= shr_m r -> shr_m (SpecFloat.iter_pos shr_1 p r) = shr_m r / 2 ^ Z.pos p.
Proof.
  assert (Hnn : forall r, 0 <= shr_m r -> 0 <= shr_m (shr_1 r)).
  { intros r Hr. rewrite shr_m_shr_1 by assumption. apply Z.div_pos; lia. }
  assert (Hp : forall q : positive, 0 < 2 ^ Z.pos q) by (intros; apply Z.pow_pos_nonneg; lia).
  induction p as [p IH|p IH|]; intros r Hr; simpl SpecFloat.iter_pos.
  - assert (H1 : 0 <= shr_m (SpecFloat.iter_pos shr_1 p (shr_1 r))).
    { rewrite IH by auto. apply Z.div_pos; auto. }
    rewrite IH, IH, shr_m_shr_1 by auto.
    replace (Z.pos p~1) with (1 + Z.pos p + Z.pos p) by lia.
    rewrite !Z.pow_add_r by lia. specialize (Hp p).
    rewrite !Z.div_div by lia. f_equal. change (2 ^ 1) with 2. ring.
  - assert (H1 : 0 <= shr_m (SpecFloat.iter_pos shr_1 p r)).
    { rewrite IH by auto. apply Z.div_pos; auto. }
    rewrite IH, IH by auto.
    replace (Z.pos p~0) with (Z.pos p + Z.pos p) by lia.
    rewrite !Z.pow_add_r by lia. specialize (Hp p).
    rewrite !Z.div_div by lia. reflexivity.
  - rewrite shr_m_shr_1 by assumption. reflexivity.
Qed.

Lemma shr_spec (r : shr_record) (e n : Z) :
  0 <= shr_m r -> 0 <= n ->
  shr_m (fst (shr r e n)) = shr_m r / 2 ^ n /\ snd (shr r e n) = e + n /\
  (n = 0 -> fst (shr r e n) = r).
Proof.
  intros Hr Hn. destruct n as [|p|p]; simpl; try lia.
  - rewrite Z.div_1_r. repeat split; lia.
  - split; [apply shr_m_iter; assumption|split; [reflexivity|lia]].
Qed.

Lemma round_nearest_even_cases (m : Z) (l : location) :
  round_nearest_even m l = m \/ round_nearest_even m l = m + 1.
Proof.
  destruct l as [|[]]; simpl; auto. destruct (Z.even m); auto.
Qed.


Lemma fexp_normal (e : Z) :
  -1021 <= e -> fexp Py.prec Py.emax e = e - 53.
Proof. unfold fexp, emin, Py.prec, Py.emax. lia. Qed.

(** Rounding a positive mantissa of at least 53 digits, away from the
    subnormal range and from overflow: the result is finite, normal, and
    is the mantissa shifted to 53 digits or its successor. *)
Lemma binary_round_aux_faithful (sx : bool) (mx ex : Z) (lx : location) :
  0 < mx ->
  53 <= Zdigits2 mx ->
  -1074 <= ex + Zdigits2 mx - 53 <= 970 ->
  exists (m' : positive) (e' mr : Z),
    binary_round_aux Py.prec Py.emax sx mx ex lx = S754_finite sx m' e' /\
    (mr = mx / 2 ^ (Zdigits2 mx - 53) \/ mr = mx / 2 ^ (Zdigits2 mx - 53) + 1) /\
    ((Z.pos m' = mr /\ e' = ex + Zdigits2 mx - 53) \/
     (Z.pos m' = 2 ^ 52 /\ mr = 2 ^ 53 /\ e' = ex + Zdigits2 mx - 53 + 1)) /\
    2 ^ 52 <= Z.pos m' < 2 ^ 53 /\
    2 ^ 52 <= mx / 2 ^ (Zdigits2 mx - 53) < 2 ^ 53 /\
    (Zdigits2 mx = 53 -> lx = loc_Exact -> mr = mx).
Proof.
  intros Hmx Hd He.
  set (d := Zdigits2 mx) in *.
  set (n := d - 53).
  set (m1 := mx / 2 ^ n).
  assert (Hm1 : 2 ^ 52 <= m1 < 2 ^ 53).
  { pose proof (Zdigits2_bounds mx Hmx) as [Hlo Hhi]. fold d in Hlo, Hhi.
    assert (Hn : 0 < 2 ^ n) by (apply Z.pow_pos_nonneg; lia).
    replace (d - 1) with (52 + n) in Hlo by lia.
    replace d with (53 + n) in Hhi by lia.
    rewrite Z.pow_add_r in Hlo, Hhi by lia.
    unfold m1. split.
    - apply Z.div_le_lower_bound; lia.
    - apply Z.div_lt_upper_bound; lia. }
  unfold binary_round_aux.
  unfold shr_fexp at 1. fold d.
  rewrite fexp_normal by lia.
  replace (d + ex - 53 - ex) with n by lia.
  assert (Hrec : 0 <= shr_m (shr_record_of_loc mx lx)).
  { destruct lx as [|[]]; simpl; lia. }
  assert (Hrm : shr_m (shr_record_of_loc mx lx) = mx).
  { destruct lx as [|[]]; reflexivity. }
  destruct (shr_spec (shr_record_of_loc mx lx) ex n Hrec ltac:(lia))
    as (Hs1 & Hs2 & Hs3).
  destruct (shr (shr_record_of_loc mx lx) ex n) as [mrs' e1].
  simpl in Hs1, Hs2, Hs3. rewrite Hrm in Hs1. fold m1 in Hs1. subst e1.
  set (mr := round_nearest_even (shr_m mrs') (loc_of_shr_record mrs')).
  assert (Hmr : mr = m1 \/ mr = m1 + 1).
  { unfold mr. rewrite Hs1. apply round_nearest_even_cases. }
  assert (Hmrb : 2 ^ 52 <= mr <= 2 ^ 53) by lia.
  assert (Hex : d = 53 -> lx = loc_Exact -> mr = mx).
  { intros Hd53 ->. unfold mr. rewrite Hs3 by lia. reflexivity. }
  unfold shr_fexp. simpl shr_record_of_loc.
  destruct (Z.eq_dec mr (2 ^ 53)) as [Htop|Hnt].
  - rewrite Htop. 
    change (Zdigits2 (2 ^ 53)) with 54.
    rewrite fexp_normal by lia.
    replace (54 + (ex + n) - 53 - (ex + n)) with 1 by lia.
    simpl shr. cbv [shr_m].
    replace (ex + n + 1 <=? Py.emax - Py.prec) with true
      by (symmetry; apply Z.leb_le; unfold Py.emax, Py.prec; lia).
    exists (2 ^ 52)%positive, (ex + n + 1), mr.
    split; [reflexivity|]. split; [exact Hmr|].
    split; [right; repeat split; lia|]. split; [lia|]. split; [exact Hm1|exact Hex].
  - assert (Hdr : Zdigits2 mr = 53) by (apply Zdigits2_unique; lia).
    rewrite Hdr, fexp_normal by lia.
    replace (53 + (ex + n) - 53 - (ex + n)) with 0 by lia.
    simpl shr. cbv [shr_m].
    destruct mr as [|pm|pm] eqn:Emr; try lia.
    replace (ex + n <=? Py.emax - Py.prec) with true
      by (symmetry; apply Z.leb_le; unfold Py.emax, Py.prec; lia).
    exists pm, (ex + n), (Z.pos pm).
    split; [reflexivity|]. split; [exact Hmr|].
    split; [left; split; lia|]. split; [lia|]. split; [exact Hm1|exact Hex].
Qed.

(** *** Real values *)

Lemma bpow_pos (e : Z) : (0 < bpow e)%R.
Proof. apply powerRZ_lt. lra. Qed.

Lemma bpow_add (a b : Z) : bpow (a + b) = (bpow a * bpow b)%R.
Proof. apply powerRZ_add. lra. Qed.

Lemma bpow_IZR (n : Z) : 0 <= n -> bpow n = IZR (2 ^ n).
Proof.
  intros Hn. unfold bpow. destruct n as [|p|p]; try lia.
  - reflexivity.
  - symmetry. apply (Zpower_pos_powerRZ 2 p).
Qed.

Lemma eps_pos : (0 < eps)%R.
Proof. unfold eps. apply Rinv_0_lt_compat. apply IZR_lt. reflexivity. Qed.

(** The standard model of rounding, for the result of
    [binary_round_aux]: when [x * 2^ex] is the real number being rounded
    and [mx] its integer part, the double returned is within the relative
    distance [eps] of it. *)
Lemma binary_round_aux_accurate (sx : bool) (mx ex : Z) (lx : location) (x : R) :
  0 < mx ->
  53 <= Zdigits2 mx ->
  -1074 <= ex + Zdigits2 mx - 53 <= 970 ->
  (IZR mx <= x < IZR mx + 1)%R ->
  exists (m' : positive) (e' : Z),
    binary_round_aux Py.prec Py.emax sx mx ex lx = S754_finite sx m' e' /\
    2 ^ 52 <= Z.pos m' < 2 ^ 53 /\
    ex + Zdigits2 mx - 53 <= e' <= ex + Zdigits2 mx - 52 /\
    (x * bpow ex * (1 - eps) <= F2R (Z.pos m') e' <= x * bpow ex * (1 + eps))%R.
Proof.
  intros Hmx Hd He Hx.
  destruct (binary_round_aux_faithful sx mx ex lx Hmx Hd He)
    as (m' & e' & mr & Hres & Hmr & Hval & Hm' & Hm1 & _).
  exists m', e'. split; [exact Hres|]. split; [exact Hm'|]. split; [lia|].
  set (n := Zdigits2 mx - 53) in *.
  set (m1 := mx / 2 ^ n) in *.
  assert (Hn : 0 < 2 ^ n) by (apply Z.pow_pos_nonneg; lia).
  (* the value of the result is [mr * 2^(ex+n)] *)
  assert (HV : F2R (Z.pos m') e' = (IZR mr * (bpow ex * IZR (2 ^ n)))%R).
  { rewrite <- bpow_IZR, <- bpow_add by lia. unfold F2R.
    destruct Hval as [[-> ->]|(-> & -> & ->)].
    - f_equal. f_equal. lia.
    - replace (ex + Zdigits2 mx - 53 + 1) with (1 + (ex + n)) by lia.
      rewrite (bpow_add 1).
      replace (bpow 1) with 2%R by (unfold bpow; simpl; lra).
      change (2 ^ 53) with (2 ^ 52 * 2). rewrite mult_IZR. lra. }
  rewrite HV.
  (* [m1] is the integer part of [x / 2^n] *)
  assert (Hdiv : m1 * 2 ^ n <= mx < (m1 + 1) * 2 ^ n).
  { unfold m1. pose proof (Z.mul_div_le mx (2 ^ n) Hn).
    pose proof (Z.mul_succ_div_gt mx (2 ^ n) Hn). lia. }
  destruct Hm1 as [Hm1 _].
  destruct Hdiv as [Hlo Hhi].
  assert (Hhi' : mx + 1 <= (m1 + 1) * 2 ^ n) by lia.
  apply IZR_le in Hlo, Hhi', Hm1. rewrite plus_IZR in Hhi'.
  rewrite mult_IZR in Hlo, Hhi'. rewrite plus_IZR in Hhi'.
  pose proof (bpow_pos ex) as Hb.
  assert (Hn' : (0 < IZR (2 ^ n))%R) by (apply IZR_lt; exact Hn).
  set (P := IZR (2 ^ n)) in *. set (b := bpow ex) in *.
  set (r1 := IZR m1) in *. 
  assert (Hu : (eps * IZR (2 ^ 52) = 1)%R).
  { unfold eps. apply Rinv_l. apply not_0_IZR. discriminate. }
  set (T := IZR (2 ^ 52)) in *. pose proof eps_pos as Hepos.
  assert (HU : (b * P <= r1 * (b * P) * eps)%R).
  { assert (0 < b * P)%R by nra. 
    assert (1 <= r1 * eps)%R by nra. nra. }
  assert (HX1 : (r1 * (b * P) <= x * b)%R) by nra.
  assert (HX2 : (x * b <= (r1 + 1) * (b * P))%R) by nra.
  assert (Hmr' : IZR mr = r1 \/ IZR mr = (r1 + 1)%R).
  { destruct Hmr as [->| ->]; [left; reflexivity|right].
    rewrite plus_IZR. reflexivity. }
  destruct Hmr' as [-> | ->]; split; nra.
Qed.

(** *** The operations of the resizer *)

Lemma iter_xO_pow2 (d p : positive) :
  Z.pos (Pos.iter xO p d) = Z.pos p * 2 ^ Z.pos d.
Proof.
  induction d as [|d IH] using Pos.peano_ind.
  - simpl. lia.
  - rewrite Pos.iter_succ, Pos2Z.inj_xO, IH, Pos2Z.inj_succ, Z.pow_succ_r by lia.
    ring.
Qed.

(** [float(n)] is exact up to [2^53]. *)
Lemma float_of_int_exact (n : Z) :
  0 < n < 2 ^ 53 ->
  exists m : positive,
    Py.float_of_int n = Ok (S754_finite false m (Zdigits2 n - 53)) /\
    Z.pos m = n * 2 ^ (53 - Zdigits2 n) /\
    2 ^ 52 <= Z.pos m < 2 ^ 53.
Proof.
  intros [Hn0 Hn]. destruct n as [|p|p]; try lia.
  pose proof (Zdigits2_bounds (Z.pos p) Hn0) as [Hlo Hhi].
  set (d := Zdigits2 (Z.pos p)) in *.
  assert (Hd : 1 <= d <= 53) by (apply Zdigits2_range; lia).
  unfold Py.float_of_int, binary_normalize, binary_round.
  change (Z.pos (digits2_pos p)) with d.
  rewrite Z.add_0_r, fexp_normal by lia.
  set (mz := fst (shl_align p 0 (d - 53))).
  assert (Hal : shl_align p 0 (d - 53) = (mz, d - 53) /\
                Z.pos mz = Z.pos p * 2 ^ (53 - d)).
  { unfold mz, shl_align. rewrite Z.sub_0_r.
    destruct (d - 53) as [|q|q] eqn:E; try lia.
    - simpl. replace (53 - d) with 0 by lia. split; [reflexivity|lia].
    - simpl. split; [reflexivity|]. rewrite iter_xO_pow2. f_equal. f_equal. lia. }
  destruct Hal as [-> Hmz].
  assert (Hb : 2 ^ 52 <= Z.pos mz < 2 ^ 53).
  { rewrite Hmz.
    assert (Hk : 0 < 2 ^ (53 - d)) by (apply Z.pow_pos_nonneg; lia).
    assert (E52 : 2 ^ 52 = 2 ^ (d - 1) * 2 ^ (53 - d)).
    { rewrite <- Z.pow_add_r by lia. f_equal. lia. }
    assert (E53 : 2 ^ 53 = 2 ^ d * 2 ^ (53 - d)).
    { rewrite <- Z.pow_add_r by lia. f_equal. lia. }
    rewrite E52, E53. nia. }
  assert (Hdz : Zdigits2 (Z.pos mz) = 53) by (apply Zdigits2_unique; lia).
  destruct (binary_round_aux_faithful false (Z.pos mz) (d - 53) loc_Exact)
    as (m' & e' & mr & Hres & _ & Hval & Hm' & _ & Hex); try lia.
  specialize (Hex Hdz eq_refl). subst mr.
  rewrite Hres. exists m'.
  destruct Hval as [[Hm He]|(_ & Ht & _)]; [|lia].
  rewrite Hdz in He. replace e' with (d - 53) by lia.
  split; [reflexivity|]. split; [lia|lia].
Qed.

(** [a / b] on positive [int]s below [2^53]: a finite, normal double
    within the relative distance [eps] of the exact quotient. *)
Lemma int_truediv_accurate (a b : Z) :
  0 < a < 2 ^ 53 -> 0 < b < 2 ^ 53 ->
  exists (m : positive) (e : Z),
    Py.int_truediv a b = Ok (S754_finite false m e) /\
    2 ^ 52 <= Z.pos m < 2 ^ 53 /\
    -105 <= e <= 1 /\
    (IZR a / IZR b * (1 - eps) <= F2R (Z.pos m) e <= IZR a / IZR b * (1 + eps))%R.
Proof.
  intros [Ha0 Ha] [Hb0 Hb].
  pose proof (Zdigits2_bounds a Ha0) as [Halo Hahi].
  pose proof (Zdigits2_bounds b Hb0) as [Hblo Hbhi].
  set (d1 := Zdigits2 a) in *. set (d2 := Zdigits2 b) in *.
  assert (Hd1 : 1 <= d1 <= 53) by (apply Zdigits2_range; lia).
  assert (Hd2 : 1 <= d2 <= 53) by (apply Zdigits2_range; lia).
  unfold Py.int_truediv.
  replace (b =? 0) with false by (symmetry; apply Z.eqb_neq; lia).
  replace (a =? 0) with false by (symmetry; apply Z.eqb_neq; lia).
  replace (a <? 0) with false by (symmetry; apply Z.ltb_ge; lia).
  replace (b <? 0) with false by (symmetry; apply Z.ltb_ge; lia).
  rewrite (Z.abs_eq a), (Z.abs_eq b) by lia.
  unfold SFdiv_core_binary. fold d1 d2. rewrite !Z.add_0_r, Z.sub_0_r.
  rewrite fexp_normal by lia.
  rewrite Z.min_l by lia.
  set (s := 53 + d2 - d1).
  replace (0 - (d1 - d2 - 53)) with s by (unfold s; lia).
  assert (Hs : 1 <= s) by (unfold s; lia).
  replace (match s with 0 => a | Z.pos _ => Z.shiftl a s | Z.neg _ => 0 end)
    with (a * 2 ^ s)
    by (rewrite <- Z.shiftl_mul_pow2 by lia; destruct s; try lia; reflexivity).
  set (N := a * 2 ^ s).
  destruct (Z.div_eucl N b) as [q r] eqn:Edm.
  assert (Hq : q = N / b) by (unfold Z.div; rewrite Edm; reflexivity).
  cbv zeta iota beta.
  assert (H2s : 0 < 2 ^ s) by (apply Z.pow_pos_nonneg; lia).
  assert (Hqb : q * b <= N < (q + 1) * b).
  { subst q. pose proof (Z.mul_div_le N b Hb0).
    pose proof (Z.mul_succ_div_gt N b Hb0). lia. }
  assert (Hq52 : 2 ^ 52 <= q < 2 ^ 54).
  { assert (E1 : 2 ^ (d1 - 1) * 2 ^ s = 2 ^ 52 * 2 ^ d2).
    { rewrite <- !Z.pow_add_r by lia. f_equal. unfold s. lia. }
    assert (E2 : 2 ^ d1 * 2 ^ s = 2 ^ 54 * 2 ^ (d2 - 1)).
    { rewrite <- !Z.pow_add_r by lia. f_equal. unfold s. lia. }
    subst q. split.
    - apply Z.div_le_lower_bound; [lia|]. unfold N. nia.
    - apply Z.div_lt_upper_bound; [lia|]. unfold N. nia. }
  assert (Hdq : Zdigits2 q = 53 \/ Zdigits2 q = 54).
  { destruct (Z_lt_le_dec q (2 ^ 53)).
    - left. apply Zdigits2_unique; lia.
    - right. apply Zdigits2_unique; lia. }
  set (x := (IZR N / IZR b)%R).
  assert (Hbr : (0 < IZR b)%R) by (apply IZR_lt; lia).
  assert (Hx : (IZR q <= x < IZR q + 1)%R).
  { destruct Hqb as [Hl Hh]. apply IZR_le in Hl. apply IZR_lt in Hh.
    rewrite mult_IZR in Hl, Hh. rewrite plus_IZR in Hh.
    unfold x. split.
    - apply Rmult_le_reg_r with (IZR b); [assumption|].
      unfold Rdiv. rewrite Rmult_assoc, Rinv_l by lra. lra.
    - apply Rmult_lt_reg_r with (IZR b); [assumption|].
      unfold Rdiv. rewrite Rmult_assoc, Rinv_l by lra. lra. }
  destruct (binary_round_aux_accurate false q (d1 - d2 - 53)
              (new_location b r) x)
    as (m & e & Hres & Hm & He & Hacc); try lia; [exact Hx|].
  change (xorb false false) with false.
  rewrite Hres. exists m, e.
  split; [reflexivity|]. split; [exact Hm|]. split; [lia|].
  assert (HX : (x * bpow (d1 - d2 - 53) = IZR a / IZR b)%R).
  { unfold x, N. rewrite mult_IZR, <- bpow_IZR by lia.
    assert (Hone : (bpow s * bpow (d1 - d2 - 53) = 1)%R).
    { rewrite <- bpow_add. replace (s + (d1 - d2 - 53)) with 0 by (unfold s; lia).
      reflexivity. }
    unfold Rdiv. 
    transitivity (IZR a * / IZR b * (bpow s * bpow (d1 - d2 - 53)))%R; [ring|].
    rewrite Hone. ring. }
  rewrite HX in Hacc. exact Hacc.
Qed.

(** [n * x] for a positive [int] below [2^53] and a positive normal
    double [x] of moderate exponent. *)
Lemma int_mul_float_accurate (n : Z) (mq : positive) (eq : Z) :
  0 < n < 2 ^ 53 ->
  2 ^ 52 <= Z.pos mq < 2 ^ 53 ->
  -200 <= eq <= 200 ->
  exists (m : positive) (e : Z),
    Py.int_mul_float n (S754_finite false mq eq) = Ok (S754_finite false m e) /\
    (IZR n * F2R (Z.pos mq) eq * (1 - eps) <= F2R (Z.pos m) e
       <= IZR n * F2R (Z.pos mq) eq * (1 + eps))%R.
Proof.
  intros Hn Hmq Heq.
  destruct (float_of_int_exact n Hn) as (mn & Hfn & Hmn & Hmnb).
  pose proof (Zdigits2_bounds n ltac:(lia)) as [Hnlo Hnhi].
  set (dn := Zdigits2 n) in *.
  assert (Hdn : 1 <= dn <= 53) by (apply Zdigits2_range; lia).
  unfold Py.int_mul_float. rewrite Hfn. cbn [rbind SFmul xorb].
  set (mx := Z.pos (mn * mq)).
  assert (Hmx : mx = Z.pos mn * Z.pos mq) by reflexivity.
  assert (Hmxb : 2 ^ 104 <= mx < 2 ^ 106).
  { change (2 ^ 104) with (2 ^ 52 * 2 ^ 52).
    change (2 ^ 106) with (2 ^ 53 * 2 ^ 53). nia. }
  assert (Hdx : Zdigits2 mx = 105 \/ Zdigits2 mx = 106).
  { destruct (Z_lt_le_dec mx (2 ^ 105)).
    - left. apply Zdigits2_unique; lia.
    - right. apply Zdigits2_unique; lia. }
  destruct (binary_round_aux_accurate false mx (dn - 53 + eq) loc_Exact (IZR mx))
    as (m & e & Hres & _ & _ & Hacc); try lia; [lra|].
  rewrite Hres. exists m, e. split; [reflexivity|].
  assert (HX : (IZR mx * bpow (dn - 53 + eq) = IZR n * F2R (Z.pos mq) eq)%R).
  { rewrite Hmx, mult_IZR, Hmn, mult_IZR, bpow_add, <- bpow_IZR by lia.
    assert (Hone : (bpow (53 - dn) * bpow (dn - 53) = 1)%R).
    { rewrite <- bpow_add. replace (53 - dn + (dn - 53)) with 0 by lia.
      reflexivity. }
    unfold F2R.
    transitivity (IZR n * (IZR (Z.pos mq) * bpow eq)
                  * (bpow (53 - dn) * bpow (dn - 53)))%R; [ring|].
    rewrite Hone. ring. }
  rewrite HX in Hacc. exact Hacc.
Qed.

(** [int(x)] on a positive double is the integer part of its value. *)
Lemma int_of_float_floor (m : positive) (e : Z) :
  exists k : Z,
    Py.int_of_float (S754_finite false m e) = Ok k /\
    (IZR k <= F2R (Z.pos m) e < IZR k + 1)%R.
Proof.
  exists (Z.shiftl (Z.pos m) e). split; [reflexivity|].
  unfold F2R. destruct (Z_le_gt_dec 0 e) as [He|He].
  - rewrite Z.shiftl_mul_pow2, mult_IZR, bpow_IZR by lia. lra.
  - assert (Hsh : Z.shiftl (Z.pos m) e = Z.pos m / 2 ^ (- e)).
    { rewrite <- Z.shiftr_div_pow2, <- Z.shiftl_opp_r by lia.
      f_equal. lia. }
    rewrite Hsh.
    set (P := 2 ^ (- e)).
    assert (HP : 0 < P) by (apply Z.pow_pos_nonneg; lia).
    pose proof (Z.mul_div_le (Z.pos m) P HP) as Hlo.
    pose proof (Z.mul_succ_div_gt (Z.pos m) P HP) as Hhi.
    set (k := Z.pos m / P) in *.
    assert (Hhi' : Z.pos m < (k + 1) * P) by lia.
    assert (Hlo' : k * P <= Z.pos m) by lia.
    apply IZR_le in Hlo'. apply IZR_lt in Hhi'.
    rewrite mult_IZR in Hlo', Hhi'. rewrite plus_IZR in Hhi'.
    assert (Hb : (bpow e * IZR P = 1)%R).
    { unfold P. rewrite <- bpow_IZR, <- bpow_add by lia.
      replace (e + - e) with 0 by lia. reflexivity. }
    assert (HPr : (0 < IZR P)%R) by (apply IZR_lt; exact HP).
    pose proof (bpow_pos e) as Hbe.
    set (B := bpow e) in *. set (rP := IZR P) in *.
    set (rm := IZR (Z.pos m)) in *. set (rk := IZR k) in *.
    split.
    + apply Rmult_le_reg_r with rP; [assumption|].
      rewrite Rmult_assoc, Hb. lra.
    + apply Rmult_lt_reg_r with rP; [assumption|].
      rewrite Rmult_assoc, Hb. lra.
Qed.

(** *** [int(side * (max_size / other))] *)

(** The truncated double-precision product never exceeds the exact scaled
    value [side * max_size / other], and falls short of it by at most
    one. *)
Theorem scale_side_spec (side max_size other : Z) :
  0 < side < 2 ^ 53 -> 0 < max_size < 2 ^ 53 -> 0 < other < 2 ^ 53 ->
  side * max_size <= 2 ^ 50 ->
  exists n : Z,
    scale_side side max_size other = Ok n /\
    side * max_size - other <= n * other <= side * max_size.
Proof.
  intros Hs HM Hl HW.
  destruct (int_truediv_accurate max_size other HM Hl)
    as (mq & eq & Hq & Hmq & Heq & Haccq).
  destruct (int_mul_float_accurate side mq eq Hs Hmq ltac:(lia))
    as (mp & ep & Hp & Haccp).
  destruct (int_of_float_floor mp ep) as (k & Hk & Hfl).
  exists k. split.
  { unfold scale_side. rewrite Hq. cbn [rbind]. rewrite Hp. cbn [rbind].
    exact Hk. }
  set (Vq := F2R (Z.pos mq) eq) in *. set (Vp := F2R (Z.pos mp) ep) in *.
  assert (Hrs : (1 <= IZR side)%R) by (apply IZR_le; lia).
  assert (HrM : (1 <= IZR max_size)%R) by (apply IZR_le; lia).
  assert (Hrl : (1 <= IZR other)%R) by (apply IZR_le; lia).
  assert (HrW : (IZR side * IZR max_size <= IZR (2 ^ 50))%R).
  { rewrite <- mult_IZR. apply IZR_le. exact HW. }
  change (2 ^ 50) with 1125899906842624 in HrW.
  assert (He : eps = (/ 4503599627370496)%R) by reflexivity.
  set (rs := IZR side) in *. set (rM := IZR max_size) in *.
  set (rl := IZR other) in *. set (rk := IZR k) in *.
  set (A := (rM / rl)%R) in *.
  assert (HA : (A * rl = rM)%R).
  { unfold A, Rdiv. rewrite Rmult_assoc, Rinv_l by lra. lra. }
  assert (HA0 : (0 < A)%R).
  { unfold A. apply Rdiv_lt_0_compat; lra. }
  destruct Haccq as [Hq1 Hq2]. destruct Haccp as [Hp1 Hp2].
  destruct Hfl as [Hk1 Hk2].
  assert (Hup : (Vp * rl <= rs * rM * ((1 + eps) * (1 + eps)))%R).
  { assert (Vp <= rs * (A * (1 + eps)) * (1 + eps))%R.
    { apply Rle_trans with (1 := Hp2).
      apply Rmult_le_compat_r; [lra|].
      apply Rmult_le_compat_l; lra. }
    rewrite <- HA.
    replace (rs * (A * rl) * ((1 + eps) * (1 + eps)))%R
      with (rs * (A * (1 + eps)) * (1 + eps) * rl)%R by ring.
    apply Rmult_le_compat_r; lra. }
  assert (Hlow : (rs * rM * ((1 - eps) * (1 - eps)) <= Vp * rl)%R).
  { assert (rs * (A * (1 - eps)) * (1 - eps) <= Vp)%R.
    { apply Rle_trans with (2 := Hp1).
      apply Rmult_le_compat_r; [lra|].
      apply Rmult_le_compat_l; lra. }
    rewrite <- HA.
    replace (rs * (A * rl) * ((1 - eps) * (1 - eps)))%R
      with (rs * (A * (1 - eps)) * (1 - eps) * rl)%R by ring.
    apply Rmult_le_compat_r; lra. }
  assert (Hkl1 : (rk * rl <= Vp * rl)%R) by (apply Rmult_le_compat_r; lra).
  assert (Hkl2 : (Vp * rl < (rk + 1) * rl)%R) by (apply Rmult_lt_compat_r; lra).
  rewrite He in Hup, Hlow.
  split.
  - destruct (Z_le_gt_dec (side * max_size - other) (k * other)) as [|Hc];
      [assumption|exfalso].
    assert (Hc' : (k + 1) * other <= side * max_size - 1) by lia.
    apply IZR_le in Hc'. rewrite minus_IZR, !mult_IZR, plus_IZR in Hc'.
    fold rs rM rl rk in Hc'. lra.
  - destruct (Z_le_gt_dec (k * other) (side * max_size)) as [|Hc];
      [assumption|exfalso].
    assert (Hc' : side * max_size + 1 <= k * other) by lia.
    apply IZR_le in Hc'. rewrite plus_IZR, !mult_IZR in Hc'.
    fold rs rM rl rk in Hc'. lra.
Qed.

End Binary64.

(** ** Runs of the page *)

Section PageFacts.

Variable C : Collaborators.

Lemma process_image_body_frame (image_bytes : bytes) (w : world) :
  process_image_body C image_bytes w =
  let r := process_image_body C image_bytes empty_world in
  (fst r, extend w (shown (snd r)) (calls (snd r))).
Proof.
  unfold process_image_body, try_except, bind, call, emit, ret, extend.
  destruct (Image_open C image_bytes) as [image|e]; simpl.
  - destruct (resize_image (Image_resize C) image MAX_IMAGE_SIZE) as [resized|e]; simpl.
    + destruct (remove C resized) as [result|e]; simpl.
      * rewrite app_nil_r, <- !app_assoc. reflexivity.
      * rewrite <- !app_assoc. reflexivity.
    + rewrite <- !app_assoc. reflexivity.
  - reflexivity.
Qed.

Lemma process_image_body_run (b : bytes) (w : world) :
  process_image_body C b w =
  (body_value C b, extend w (body_events C b) (body_calls C b)).
Proof. apply process_image_body_frame. Qed.

Lemma new_events_extend (w : world) evs cs :
  new_events w (extend w evs cs) = evs.
Proof. unfold new_events, extend. simpl. apply drop_app_length. Qed.

Lemma memo_ok_iff (w : world) :
  memo_ok C w <->
  forall key value elements,
    memo w !! key = Some (value, elements) ->
    body_value C key = Ok value /\ body_events C key = elements.
Proof.
  unfold memo_ok. split; intros H key value elements Hk.
  - destruct (H key value elements Hk empty_world) as [Hv He].
    split; [exact Hv|]. exact He.
  - intros w0. rewrite process_image_body_run. simpl.
    rewrite new_events_extend. apply (H key value elements Hk).
Qed.

Lemma memo_ok_empty : memo_ok C empty_world.
Proof. intros key value elements Hk. simpl in Hk. rewrite lookup_empty in Hk. discriminate. Qed.

Lemma memo_ok_same_memo (w w' : world) :
  memo w' = memo w -> memo_ok C w -> memo_ok C w'.
Proof. unfold memo_ok. intros ->. auto. Qed.

(** A call of the memoized [process_image]: the value and the page
    elements are those of the body, whether the key was in the table or
    not; the stages are invoked only when it was not. *)
Lemma process_image_run (b : bytes) (w : world) :
  memo_ok C w ->
  exists w',
    process_image C b w = (body_value C b, w') /\
    shown w' = shown w ++ body_events C b /\
    ticks w' = ticks w /\
    memo_ok C w' /\
    (calls w' = calls w \/ calls w' = calls w ++ body_calls C b).
Proof.
  intros Hok. unfold process_image, st_cache_data.
  destruct (memo w !! b) as [[value elements]|] eqn:Hb.
  - destruct (proj1 (memo_ok_iff w) Hok b value elements Hb) as [Hv He].
    eexists. split; [rewrite Hv; reflexivity|]. simpl.
    rewrite He. split; [reflexivity|]. split; [reflexivity|].
    split; [|left; reflexivity].
    apply (memo_ok_same_memo w); [reflexivity|exact Hok].
  - rewrite process_image_body_run.
    destruct (body_value C b) as [value|e] eqn:Hv.
    + eexists. split; [reflexivity|]. simpl.
      split; [reflexivity|]. split; [reflexivity|].
      split; [|right; reflexivity].
      apply memo_ok_iff. intros key value' elements' Hk. simpl in Hk.
      destruct (decide (b = key)) as [<-|Hne].
      * rewrite lookup_insert_eq in Hk. injection Hk as <- <-.
        split; [exact Hv|]. symmetry. apply drop_app_length.
      * rewrite lookup_insert_ne in Hk by exact Hne.
        exact (proj1 (memo_ok_iff w) Hok key value' elements' Hk).
    + eexists. split; [reflexivity|]. simpl.
      split; [reflexivity|]. split; [reflexivity|].
      split; [|right; reflexivity].
      apply (memo_ok_same_memo w); [reflexivity|exact Hok].
Qed.

(** The four ways the body can go. *)
Lemma body_cases (b : bytes) :
  (exists e, Image_open C b = Raise e /\
     body_value C b = Ok (None, None) /\
     body_events C b = [St_error (String.append "Image processing error: " (str e))] /\
     body_calls C b = [Decode]) \/
  (exists image e, Image_open C b = Ok image /\
     resize_image (Image_resize C) image MAX_IMAGE_SIZE = Raise e /\
     body_value C b = Ok (None, None) /\
     body_events C b = [St_error (String.append "Image processing error: " (str e))] /\
     body_calls C b = [Decode; Resize]) \/
  (exists image resized e, Image_open C b = Ok image /\
     resize_image (Image_resize C) image MAX_IMAGE_SIZE = Ok resized /\
     remove C resized = Raise e /\
     body_value C b = Ok (None, None) /\
     body_events C b = [St_error (String.append "Image processing error: " (str e))] /\
     body_calls C b = [Decode; Resize; Remove]) \/
  (exists image resized result, Image_open C b = Ok image /\
     resize_image (Image_resize C) image MAX_IMAGE_SIZE = Ok resized /\
     remove C resized = Ok result /\
     body_value C b = Ok (Some image, Some result) /\
     body_events C b = [] /\
     body_calls C b = [Decode; Resize; Remove]).
Proof.
  unfold body_value, body_events, body_calls, process_image_body,
    try_except, bind, call, emit, ret.
  destruct (Image_open C b) as [image|e] eqn:Ho; simpl.
  - destruct (resize_image (Image_resize C) image MAX_IMAGE_SIZE)
      as [resized|e] eqn:Hr; simpl.
    + destruct (remove C resized) as [result|e] eqn:Hm; simpl.
      * right; right; right. exists image, resized, result. rewrite Hr, Hm. auto 10.
      * right; right; left. exists image, resized, e. rewrite Hr, Hm. auto 10.
    + right; left. exists image, e. rewrite Hr. auto 10.
  - left. exists e. auto.
Qed.

Ltac run_body :=
  unfold body_value, body_events, body_calls, process_image_body,
    try_except, bind, call, emit, ret.

Lemma body_decode_failure (b : bytes) (e : exn) :
  Image_open C b = Raise e ->
  body_value C b = Ok (None, None) /\
  body_events C b
  = [St_error (String.append "Image processing error: " (str e))] /\
  body_calls C b = [Decode].
Proof. intros Ho. run_body. rewrite Ho. simpl. auto. Qed.

Lemma body_removal_failure (b : bytes) (original resized : Image) (e : exn) :
  Image_open C b = Ok original ->
  resize_image (Image_resize C) original MAX_IMAGE_SIZE = Ok resized ->
  remove C resized = Raise e ->
  body_value C b = Ok (None, None) /\
  body_events C b
  = [St_error (String.append "Image processing error: " (str e))] /\
  body_calls C b = [Decode; Resize; Remove].
Proof.
  intros Ho Hr Hm. run_body. rewrite Ho. simpl. rewrite Hr. simpl.
  rewrite Hm. simpl. auto.
Qed.

Lemma body_success (b : bytes) (original resized removed : Image) :
  Image_open C b = Ok original ->
  resize_image (Image_resize C) original MAX_IMAGE_SIZE = Ok resized ->
  remove C resized = Ok removed ->
  body_value C b = Ok (Some original, Some removed) /\
  body_events C b = [] /\
  body_calls C b = [Decode; Resize; Remove].
Proof.
  intros Ho Hr Hm. run_body. rewrite Ho. simpl. rewrite Hr. simpl.
  rewrite Hm. simpl. auto.
Qed.

(** The body never touches the progress bar. *)
Lemma body_no_progress (b : bytes) :
  progress_values (body_events C b) = [].
Proof.
  destruct (body_cases b)
    as [(e & _ & _ & Hev & _)|[(image & e & _ & _ & _ & Hev & _)
       |[(image & resized & e & _ & _ & _ & _ & Hev & _)
        |(image & resized & result & _ & _ & _ & _ & Hev & _)]]];
    rewrite Hev; reflexivity.
Qed.

(** A run of [fix_image]: it always returns, and what it adds to the
    page is the prelude, the elements of the body and the epilogue. *)
Lemma fix_image_run (f : UploadedFile) (w : world) :
  memo_ok C w ->
  exists w' cs,
    fix_image C f w = (Ok tt, w') /\
    memo_ok C w' /\
    shown w' = shown w ++ prelude ++ body_events C (getvalue f)
                 ++ epilogue C w (body_value C (getvalue f)) /\
    (cs = [] \/ cs = body_calls C (getvalue f)) /\
    calls w' = calls w ++ cs ++ epilogue_calls C (body_value C (getvalue f)).
Proof.
  intros Hok.
  set (w1 := {| shown := shown w ++ prelude; calls := calls w;
                memo := memo w; ticks := S (ticks w) |}).
  assert (Hok1 : memo_ok C w1)
    by (apply (memo_ok_same_memo w); [reflexivity|exact Hok]).
  destruct (process_image_run (getvalue f) w1 Hok1)
    as (w2 & Hrun & Hshown & Hticks & Hok2 & Hcalls).
  assert (Hcs : exists cs, (cs = [] \/ cs = body_calls C (getvalue f)) /\
                           calls w2 = calls w ++ cs).
  { destruct Hcalls as [Hc|Hc].
    - exists []. split; [left; reflexivity|]. rewrite Hc, app_nil_r. reflexivity.
    - exists (body_calls C (getvalue f)). split; [right; reflexivity|exact Hc]. }
  destruct Hcs as (cs & Hcs & Hc2).
  unfold fix_image, try_except, bind, read_clock, emit. simpl.
  rewrite <- !app_assoc. simpl. fold prelude. fold w1.
  rewrite Hrun.
  assert (Hw2 : forall tl, shown w2 ++ tl
                = shown w ++ prelude ++ body_events C (getvalue f) ++ tl).
  { intros tl. rewrite Hshown. simpl shown. rewrite <- !app_assoc. reflexivity. }
  assert (Hmemo : forall sh cl tk,
            memo_ok C {| shown := sh; calls := cl; memo := memo w2; ticks := tk |}).
  { intros. apply (memo_ok_same_memo w2); [reflexivity|exact Hok2]. }
  assert (Hdone : forall sh cl tk tl cl',
            sh = shown w2 ++ tl -> cl = calls w2 ++ cl' ->
            exists w' cs0,
              (Ok tt, {| shown := sh; calls := cl; memo := memo w2;
                         ticks := tk |}) = (Ok tt, w') /\
              memo_ok C w' /\
              shown w' = shown w ++ prelude ++ body_events C (getvalue f) ++ tl /\
              (cs0 = [] \/ cs0 = body_calls C (getvalue f)) /\
              calls w' = calls w ++ cs0 ++ cl').
  { intros sh cl tk tl cl' -> ->. eexists; exists cs.
    split; [reflexivity|]. split; [apply Hmemo|]. simpl.
    split; [apply Hw2|]. split; [exact Hcs|].
    rewrite Hc2, <- app_assoc. reflexivity. }
  destruct (body_cases (getvalue f))
    as [(e & _ & Hv & _)|[(image & e & _ & _ & Hv & _)
       |[(image & resized & e & _ & _ & _ & Hv & _)
        |(image & resized & result & _ & _ & _ & Hv & _)]]];
    rewrite Hv; simpl;
    try (destruct w2; apply Hdone; simpl; rewrite app_nil_r; reflexivity).
  unfold col_image, lift, call, bind, emit, failure_report. simpl.
  destruct (st_image C image) as [[]|e1]; simpl.
  2:{ apply Hdone; [|rewrite app_nil_r; reflexivity].
      rewrite <- !app_assoc. reflexivity. }
  destruct (st_image C result) as [[]|e2]; simpl.
  2:{ apply Hdone; [|rewrite app_nil_r; reflexivity].
      rewrite <- !app_assoc. reflexivity. }
  destruct (convert_image C result) as [data|e3]; simpl.
  - rewrite Hticks. simpl ticks.
    apply Hdone; [|reflexivity]. rewrite <- !app_assoc. reflexivity.
  - apply Hdone; [|reflexivity]. rewrite <- !app_assoc. reflexivity.
Qed.

Lemma body_value_ok (b : bytes) :
  exists images, body_value C b = Ok images.
Proof.
  destruct (body_cases b)
    as [(e & _ & Hv & _)|[(image & e & _ & _ & Hv & _)
       |[(image & resized & e & _ & _ & _ & Hv & _)
        |(image & resized & result & _ & _ & _ & Hv & _)]]];
    rewrite Hv; eauto.
Qed.


End PageFacts.

Lemma new_events_app (w w' : world) (evs : list event) :
  shown w' = shown w ++ evs -> new_events w w' = evs.
Proof. intros H. unfold new_events. rewrite H. apply drop_app_length. Qed.

Lemma new_calls_app (w w' : world) (cs : list stage) :
  calls w' = calls w ++ cs -> new_calls w w' = cs.
Proof. intros H. unfold new_calls. rewrite H. apply drop_app_length. Qed.

(** Case analysis on the outcomes the epilogue of [fix_image] depends on:
    the display of each raster and the encoding. *)
Ltac epilogue_cases :=
  unfold failure_report; simpl;
  repeat match goal with
  | |- context [match st_image ?C ?i with _ => _ end] =>
      destruct (st_image C i) as [[]|?] eqn:?; simpl
  | |- context [match convert_image ?C ?i with _ => _ end] =>
      destruct (convert_image C i) as [?|?] eqn:?; simpl
  end.

(** ** The resizer *)

(** From the two-sided bound of [scale_side_spec]: the result is the
    truncated quotient or, on an exact quotient, possibly one less. *)
Lemma bounds_truncated_scale (side max_size other n : Z) :
  0 < other -> 0 < side * max_size ->
  side * max_size - other <= n * other <= side * max_size ->
  truncated_scale side max_size other n /\ 0 <= n.
Proof.
  intros Ho Hp [Hlo Hhi]. unfold truncated_scale.
  pose proof (Z.div_mod (side * max_size) other ltac:(lia)) as Hdm.
  pose proof (Z.mod_pos_bound (side * max_size) other Ho) as Hm.
  set (q := side * max_size / other) in *.
  set (r := (side * max_size) mod other) in *.
  assert (Hup : n < q + 1).
  { assert (n * other < (q + 1) * other) by lia.
    apply Z.mul_lt_mono_pos_r in H; lia. }
  assert (Hdn : q - 1 <= n).
  { assert ((q - 1) * other <= n * other) by lia.
    apply Z.mul_le_mono_pos_r in H; lia. }
  assert (Hn0 : 0 <= n).
  { assert (-1 * other < n * other) by lia.
    apply Z.mul_lt_mono_pos_r in H; lia. }
  split; [|exact Hn0].
  destruct (Z.eq_dec n q) as [->|Hne]; [left; reflexivity|].
  right. assert (n = q - 1) by lia. subst n. split; [reflexivity|nia].
Qed.

(** C4. A raster whose width and height are both at most the bound [M]
    is returned as it is, so resizing the result again changes nothing. *)
Theorem resize_image_within_bound_is_identity
    (R : Image -> Z * Z -> result Image) (image : Image) (M : Z) :
  fst (size image) <= M -> snd (size image) <= M ->
  resize_image R image M = Ok image /\
  (resized <- resize_image R image M ;; resize_image R resized M)%result
  = Ok image.
Proof.
  intros Hw Hh.
  assert (H1 : resize_image R image M = Ok image).
  { unfold resize_image. destruct (size image) as [width height].
    simpl in Hw, Hh.
    replace (width <=? M) with true by (symmetry; apply Z.leb_le; lia).
    replace (height <=? M) with true by (symmetry; apply Z.leb_le; lia).
    reflexivity. }
  split; [exact H1|]. rewrite H1. simpl. exact H1.
Qed.

Lemma resize_image_within_bound_is_identity_witness :
  (fst (size (Demo.raster 500 500)) <= MAX_IMAGE_SIZE /\
   snd (size (Demo.raster 500 500)) <= MAX_IMAGE_SIZE) /\
  resize_image Demo.resize (Demo.raster 500 500) MAX_IMAGE_SIZE
  = Ok (Demo.raster 500 500) /\
  (resized <- resize_image Demo.resize (Demo.raster 500 500) MAX_IMAGE_SIZE ;;
   resize_image Demo.resize resized MAX_IMAGE_SIZE)%result
  = Ok (Demo.raster 500 500).
Proof.
  split.
  - split; vm_compute; discriminate.
  - apply (resize_image_within_bound_is_identity Demo.resize
             (Demo.raster 500 500) MAX_IMAGE_SIZE);
      vm_compute; discriminate.
Defined.

(** The size [resize_image] asks the resampler for, when one side exceeds
    the bound. *)
Lemma resize_image_request
    (R : Image -> Z * Z -> result Image) (image : Image)
    (M width height : Z) :
  size image = (width, height) ->
  0 < width < 2 ^ 31 -> 0 < height < 2 ^ 31 -> 0 < M <= 2 ^ 19 ->
  M < width \/ M < height ->
  exists n : Z,
    resize_image R image M
    = R image (if width >? height then (M, n) else (n, M)) /\
    (if width >? height
     then height * M - width <= n * width <= height * M
     else width * M - height <= n * height <= width * M).
Proof.
  intros Hsz Hw Hh HM Hbig.
  assert (H31 : 2 ^ 31 = 2147483648) by reflexivity.
  assert (H19 : 2 ^ 19 = 524288) by reflexivity.
  assert (H53 : 2 ^ 53 = 9007199254740992) by reflexivity.
  assert (H50 : 2 ^ 50 = 1125899906842624) by reflexivity.
  unfold resize_image. rewrite Hsz.
  replace ((width <=? M) && (height <=? M)) with false.
  2:{ symmetry. apply andb_false_iff.
      destruct Hbig; [left|right]; apply Z.leb_gt; lia. }
  unfold new_size.
  destruct (width >? height) eqn:Hgt.
  - destruct (scale_side_spec height M width) as (n & Hn & Hb); try nia.
    exists n. rewrite Hn. simpl. split; [reflexivity|exact Hb].
  - destruct (scale_side_spec width M height) as (n & Hn & Hb); try nia.
    exists n. rewrite Hn. simpl. split; [reflexivity|exact Hb].
Qed.

(** C1, as the specification words it, fails: a 3000 x 1999 raster is
    scaled to 2000 x 1332, while the shorter side rounded to the nearest
    integer would be 1333 (1999 * 2000 / 3000 = 1332.67). *)
Lemma resize_image_does_not_round_to_nearest :
  Resizer_size 3000 1999 2000 = (2000, 1333) /\
  resize_image Demo.resize (Demo.raster 3000 1999) 2000
  = Ok (Demo.raster 2000 1332) /\
  ~ (exists resized,
       resize_image Demo.resize (Demo.raster 3000 1999) 2000 = Ok resized /\
       size resized = Resizer_size 3000 1999 2000).
Proof.
  assert (H : resize_image Demo.resize (Demo.raster 3000 1999) 2000
              = Ok (Demo.raster 2000 1332)) by (vm_compute; reflexivity).
  split; [vm_compute; reflexivity|]. split; [exact H|].
  intros (resized & Hr & Hs). rewrite H in Hr. injection Hr as <-.
  vm_compute in Hs. discriminate Hs.
Qed.

(** C1 (amended). When the width or the height exceeds the bound [M], the
    size [resize_image] hands to the resampler has its longer side equal to
    [M]; its shorter side is scaled by the same ratio and rounded down,
    never up: it does not exceed [short * M / long] and is at most one below
    it.  The larger of the two new sides is [M]. *)
Theorem resize_image_scales_long_side_to_bound
    (R : Image -> Z * Z -> result Image) (image : Image)
    (M width height : Z) :
  size image = (width, height) ->
  0 < width < 2 ^ 31 -> 0 < height < 2 ^ 31 -> 0 < M <= 2 ^ 19 ->
  M < width \/ M < height ->
  exists new_width new_height : Z,
    resize_image R image M = R image (new_width, new_height) /\
    Z.max new_width new_height = M /\
    (if width >? height
     then new_width = M /\
          height * M - width <= new_height * width <= height * M
     else new_height = M /\
          width * M - height <= new_width * height <= width * M).
Proof.
  intros Hsz Hw Hh HM Hbig.
  destruct (resize_image_request R image M width height Hsz Hw Hh HM Hbig)
    as (n & Hres & Hb).
  destruct (width >? height) eqn:Hgt.
  - apply Z.gtb_lt in Hgt.
    exists M, n. split; [exact Hres|].
    split; [|split; [reflexivity|exact Hb]].
    assert (n <= M); [|lia].
    assert (n * width <= M * width) by nia.
    apply Z.mul_le_mono_pos_r in H; lia.
  - assert (Hle : width <= height).
    { destruct (Z.gtb_spec width height); [discriminate|assumption]. }
    exists n, M. split; [exact Hres|].
    split; [|split; [reflexivity|exact Hb]].
    assert (n <= M); [|lia].
    assert (n * height <= M * height) by nia.
    apply Z.mul_le_mono_pos_r in H; lia.
Qed.

Lemma resize_image_scales_long_side_to_bound_witness :
  exists new_width new_height : Z,
    resize_image Demo.resize (Demo.raster 3000 1999) MAX_IMAGE_SIZE
    = Demo.resize (Demo.raster 3000 1999) (new_width, new_height) /\
    Z.max new_width new_height = MAX_IMAGE_SIZE /\
    new_width = MAX_IMAGE_SIZE /\
    1999 * MAX_IMAGE_SIZE - 3000 <= new_height * 3000
    <= 1999 * MAX_IMAGE_SIZE.
Proof.
  apply (resize_image_scales_long_side_to_bound Demo.resize
           (Demo.raster 3000 1999) MAX_IMAGE_SIZE 3000 1999).
  - reflexivity.
  - split; reflexivity.
  - split; reflexivity.
  - split; [reflexivity|vm_compute; discriminate].
  - left. reflexivity.
Defined.

(** X1. The shorter side in full: when the width or the height exceeds the
    bound, the shorter side of the size handed to the resampler is the
    integer part of [short * M / long], or one less than it when [long]
    divides [short * M]; it is never negative. *)
Lemma resize_image_short_side
    (R : Image -> Z * Z -> result Image) (image : Image)
    (M width height : Z) :
  size image = (width, height) ->
  0 < width < 2 ^ 31 -> 0 < height < 2 ^ 31 -> 0 < M <= 2 ^ 19 ->
  M < width \/ M < height ->
  exists n : Z,
    resize_image R image M
    = R image (if width >? height then (M, n) else (n, M)) /\
    0 <= n /\
    (if width >? height then truncated_scale height M width n
     else truncated_scale width M height n).
Proof.
  intros Hsz Hw Hh HM Hbig.
  destruct (resize_image_request R image M width height Hsz Hw Hh HM Hbig)
    as (n & Hres & Hb).
  exists n. split; [exact Hres|].
  destruct (width >? height).
  - destruct (bounds_truncated_scale height M width n); [lia|nia|exact Hb|].
    split; assumption.
  - destruct (bounds_truncated_scale width M height n); [lia|nia|exact Hb|].
    split; assumption.
Qed.

(** C7, as the specification words it, fails: a 2001 x 2 raster is scaled
    to 2000 x 1, and the quotient of the sides moves from 1000.5 to 2000. *)
Lemma aspect_ratio_changes_by_more_than_one :
  resize_image Demo.resize (Demo.raster 2001 2) 2000
  = Ok (Demo.raster 2000 1) /\
  ~ (aspect_change 2001 2 2000 1 < 1)%Q.
Proof.
  split; [vm_compute; reflexivity|].
  intros H. vm_compute in H. discriminate.
Qed.

(** The shorter side can fall a whole pixel short of its proportional
    value: 2124 x 1062 is scaled to 2000 x 999, not 2000 x 1000. *)
Example new_size_2124_1062 :
  new_size 2124 1062 2000 = Ok (2000, 999).
Proof. vm_compute. reflexivity. Qed.

(** C7 (amended). When the width or the height exceeds the bound, the new
    sides are proportional to the old ones up to one pixel of the shorter
    side: [|newWidth * height - width * newHeight| <= max(width, height)]. *)
Theorem resize_image_keeps_sides_proportional
    (R : Image -> Z * Z -> result Image) (image : Image)
    (M width height : Z) :
  size image = (width, height) ->
  0 < width < 2 ^ 31 -> 0 < height < 2 ^ 31 -> 0 < M <= 2 ^ 19 ->
  M < width \/ M < height ->
  exists new_width new_height : Z,
    resize_image R image M = R image (new_width, new_height) /\
    Z.abs (new_width * height - width * new_height) <= Z.max width height.
Proof.
  intros Hsz Hw Hh HM Hbig.
  destruct (resize_image_request R image M width height Hsz Hw Hh HM Hbig)
    as (n & Hres & Hb).
  destruct (width >? height) eqn:Hgt.
  - apply Z.gtb_lt in Hgt. exists M, n. split; [exact Hres|]. lia.
  - assert (Hle : width <= height).
    { destruct (Z.gtb_spec width height); [discriminate|assumption]. }
    exists n, M. split; [exact Hres|]. lia.
Qed.

Lemma resize_image_keeps_sides_proportional_witness :
  exists new_width new_height : Z,
    resize_image Demo.resize (Demo.raster 2001 2) MAX_IMAGE_SIZE
    = Demo.resize (Demo.raster 2001 2) (new_width, new_height) /\
    Z.abs (new_width * 2 - 2001 * new_height) <= Z.max 2001 2.
Proof.
  apply (resize_image_keeps_sides_proportional Demo.resize
           (Demo.raster 2001 2) MAX_IMAGE_SIZE 2001 2).
  - reflexivity.
  - split; reflexivity.
  - split; reflexivity.
  - split; [reflexivity|vm_compute; discriminate].
  - left. reflexivity.
Defined.

(** C10 fails on the code: for a 2001 x 1 raster and the bound the page
    uses, the height asked of the resampler is [int(1 * (2000 / 2001))],
    which is 0. *)
Theorem resize_image_short_side_collapses
    (R : Image -> Z * Z -> result Image) (buffer : bytes) :
  resize_image R {| size := (2001, 1); pixels := buffer |} MAX_IMAGE_SIZE
  = R {| size := (2001, 1); pixels := buffer |} (2000, 0).
Proof.
  unfold resize_image. cbn [size].
  change (new_size 2001 1 MAX_IMAGE_SIZE) with (new_size 2001 1 2000).
  rewrite new_size_2001_1. reflexivity.
Qed.

(** X2. The inputs on which the shorter side collapses: when the longer
    side is more than [M] times the shorter one, the size handed to the
    resampler has a side equal to 0. *)
Lemma resize_image_collapses_when
    (R : Image -> Z * Z -> result Image) (image : Image)
    (M width height : Z) :
  size image = (width, height) ->
  0 < width < 2 ^ 31 -> 0 < height < 2 ^ 31 -> 0 < M <= 2 ^ 19 ->
  M < width \/ M < height ->
  Z.min width height * M < Z.max width height ->
  resize_image R image M
  = R image (if width >? height then (M, 0) else (0, M)).
Proof.
  intros Hsz Hw Hh HM Hbig Hthin.
  destruct (resize_image_request R image M width height Hsz Hw Hh HM Hbig)
    as (n & Hres & Hb).
  rewrite Hres. destruct (width >? height) eqn:Hgt.
  - apply Z.gtb_lt in Hgt. replace n with 0; [reflexivity|]. nia.
  - assert (Hle : width <= height).
    { destruct (Z.gtb_spec width height); [discriminate|assumption]. }
    replace n with 0; [reflexivity|]. nia.
Qed.

(** ** The page handlers *)

(** C3. An upload of more than 10 MiB gets the validation message and
    nothing else: the run invokes no stage (no decode, resize, remove or
    encode) and leaves the memo table as it was. *)
Theorem oversized_upload_is_rejected
    (C : Collaborators) (uploaded : UploadedFile) (w : world) :
  10 * 1024 * 1024 < file_size uploaded ->
  exists w',
    script C (Some uploaded) w = (Ok tt, w') /\
    new_events w w'
    = [St_error "File too large. Please upload an image smaller than 10MB."] /\
    new_calls w w' = [] /\
    memo w' = memo w.
Proof.
  intros Hbig. unfold script.
  replace (file_size uploaded >? MAX_FILE_SIZE) with true
    by (symmetry; apply Z.gtb_lt; exact Hbig).
  eexists. split; [reflexivity|]. simpl.
  split; [apply new_events_app; reflexivity|].
  split; [|reflexivity].
  apply new_calls_app. simpl. rewrite app_nil_r. reflexivity.
Qed.

Lemma oversized_file_size : file_size Demo.oversized = 10 * 1024 * 1024 + 1.
Proof.
  unfold file_size, Demo.oversized. cbn [file_data].
  rewrite Zlength_correct, repeat_length, Z2Nat.id; [reflexivity|].
  vm_compute. discriminate.
Defined.

Lemma oversized_upload_is_rejected_witness :
  10 * 1024 * 1024 < file_size Demo.oversized /\
  exists w',
    script Demo.working (Some Demo.oversized) empty_world = (Ok tt, w') /\
    new_events empty_world w'
    = [St_error "File too large. Please upload an image smaller than 10MB."] /\
    new_calls empty_world w' = [] /\
    memo w' = memo empty_world.
Proof.
  assert (H : 10 * 1024 * 1024 < file_size Demo.oversized).
  { rewrite oversized_file_size. reflexivity. }
  split; [exact H|].
  exact (oversized_upload_is_rejected Demo.working Demo.oversized
           empty_world H).
Defined.

(** C5. When the bytes cannot be decoded, [fix_image] returns normally:
    the exception is caught, an error message is shown, no later stage is
    invoked, and neither raster nor download button appears. *)
Theorem malformed_upload_is_reported
    (C : Collaborators) (uploaded_file : UploadedFile) (w : world) (e : exn) :
  memo_ok C w ->
  Image_open C (getvalue uploaded_file) = Raise e ->
  exists w',
    fix_image C uploaded_file w = (Ok tt, w') /\
    new_events w w'
    = [Sidebar_progress 0; Status_text (Msg "🔄 Reading image...");
       Progress 10; Status_text (Msg "⚙️ Processing image..."); Progress 30;
       St_error (String.append "Image processing error: " (str e))] /\
    Forall (fun ev => is_output ev = false) (new_events w w') /\
    (new_calls w w' = [] \/ new_calls w w' = [Decode]).
Proof.
  intros Hok Hopen.
  destruct (fix_image_run C uploaded_file w Hok)
    as (w' & cs & Hrun & _ & Hshown & Hcs & Hcalls).
  destruct (body_decode_failure C (getvalue uploaded_file) e Hopen)
    as (Hv & Hev & Hbc).
  rewrite Hv, Hev in Hshown. rewrite Hv in Hcalls.
  simpl in Hshown, Hcalls. rewrite app_nil_r in Hcalls.
  exists w'. split; [exact Hrun|].
  assert (Hnew : new_events w w'
          = [Sidebar_progress 0; Status_text (Msg "🔄 Reading image...");
             Progress 10; Status_text (Msg "⚙️ Processing image...");
             Progress 30;
             St_error (String.append "Image processing error: " (str e))]).
  { apply new_events_app. exact Hshown. }
  split; [exact Hnew|]. split.
  - rewrite Hnew. repeat constructor.
  - destruct Hcs as [-> | ->].
    + left. apply new_calls_app. rewrite Hcalls, app_nil_r. reflexivity.
    + right. apply new_calls_app. rewrite Hcalls, Hbc. reflexivity.
Qed.

Lemma malformed_upload_is_reported_witness :
  memo_ok Demo.working empty_world /\
  Image_open Demo.working (getvalue Demo.not_an_image)
  = Raise Demo.unidentified /\
  exists w',
    fix_image Demo.working Demo.not_an_image empty_world = (Ok tt, w') /\
    new_events empty_world w'
    = [Sidebar_progress 0; Status_text (Msg "🔄 Reading image...");
       Progress 10; Status_text (Msg "⚙️ Processing image..."); Progress 30;
       St_error "Image processing error: cannot identify image file"] /\
    Forall (fun ev => is_output ev = false) (new_events empty_world w') /\
    (new_calls empty_world w' = [] \/ new_calls empty_world w' = [Decode]).
Proof.
  split; [apply memo_ok_empty|]. split; [reflexivity|].
  apply (malformed_upload_is_reported Demo.working Demo.not_an_image
           empty_world Demo.unidentified).
  - apply memo_ok_empty.
  - reflexivity.
Defined.

(** C6. On a successful run, that is when the bytes decode, the resizer
    and the removal model return, Streamlit accepts both rasters for display
    and the result can be encoded: [process_image] returns the decoded
    raster, as it was before resizing, together with the result of the
    removal; [fix_image] shows these two rasters side by side, offers the
    encoded result for download and closes with the elapsed time, which is
    the binary64 difference of the clock reading taken after the download
    button and the one taken at the start of the run. *)
Theorem successful_run_shows_original_and_result
    (C : Collaborators) (uploaded_file : UploadedFile) (w : world)
    (original resized removed : Image) (data : bytes) :
  memo_ok C w ->
  Image_open C (getvalue uploaded_file) = Ok original ->
  resize_image (Image_resize C) original MAX_IMAGE_SIZE = Ok resized ->
  remove C resized = Ok removed ->
  st_image C original = Ok tt ->
  st_image C removed = Ok tt ->
  convert_image C removed = Ok data ->
  fst (process_image C (getvalue uploaded_file) w)
  = Ok (Some original, Some removed) /\
  exists w',
    fix_image C uploaded_file w = (Ok tt, w') /\
    new_events w w'
    = [Sidebar_progress 0; Status_text (Msg "🔄 Reading image...");
       Progress 10; Status_text (Msg "⚙️ Processing image..."); Progress 30;
       Progress 90; Status_text (Msg "📸 Displaying result...");
       Col_image 1 original "Original Image";
       Col_image 2 removed "Background Removed";
       Download_button "⬇️ Download Output (PNG)" data
         "removed_background.png" "image/png";
       Progress 100;
       Status_text
         (Completed_in
            (SFsub 53 1024 (time_time C (S (ticks w)))
               (time_time C (ticks w))))].
Proof.
  intros Hok Hopen Hresize Hremove Hshow1 Hshow2 Hsave.
  destruct (body_success C (getvalue uploaded_file) original resized removed
              Hopen Hresize Hremove) as (Hv & Hev & _).
  split.
  - destruct (process_image_run C (getvalue uploaded_file) w Hok)
      as (w2 & Hrun & _). rewrite Hrun. exact Hv.
  - destruct (fix_image_run C uploaded_file w Hok)
      as (w' & cs & Hrun & _ & Hshown & _).
    exists w'. split; [exact Hrun|].
    apply new_events_app. rewrite Hshown, Hv, Hev. simpl.
    rewrite Hshow1, Hshow2, Hsave. reflexivity.
Qed.

Lemma successful_run_shows_original_and_result_witness :
  fst (process_image Demo.working (getvalue Demo.small_png) empty_world)
  = Ok (Some Demo.small_raster, Some Demo.small_raster) /\
  exists w',
    fix_image Demo.working Demo.small_png empty_world = (Ok tt, w') /\
    new_events empty_world w'
    = [Sidebar_progress 0; Status_text (Msg "🔄 Reading image...");
       Progress 10; Status_text (Msg "⚙️ Processing image..."); Progress 30;
       Progress 90; Status_text (Msg "📸 Displaying result...");
       Col_image 1 Demo.small_raster "Original Image";
       Col_image 2 Demo.small_raster "Background Removed";
       Download_button "⬇️ Download Output (PNG)" [xff; x00]
         "removed_background.png" "image/png";
       Progress 100;
       Status_text
         (Completed_in (SFsub 53 1024 (Demo.clock 1) (Demo.clock 0)))].
Proof.
  apply (successful_run_shows_original_and_result Demo.working
           Demo.small_png empty_world Demo.small_raster Demo.small_raster
           Demo.small_raster [xff; x00]).
  - apply memo_ok_empty.
  - reflexivity.
  - reflexivity.
  - reflexivity.
  - reflexivity.
  - reflexivity.
  - reflexivity.
Defined.

(** With readings one second apart the elapsed time shown is 1.0. *)
Example elapsed_one_second :
  SFsub 53 1024 (Demo.clock 1) (Demo.clock 0)
  = S754_finite false 4503599627370496 (-52).
Proof. vm_compute. reflexivity. Qed.

(** C8, as the specification words it, fails: what removal returns is not
    determined by the bytes.  When the removal model fails during one run
    and works during another, the same bytes give [(None, None)] in the one
    and both rasters in the other; and after the failing run the memo table
    answers [(None, None)] where a recomputation returns both rasters. *)
Lemma memoized_result_is_not_recomputation :
  fst (process_image Demo.failing_model (getvalue Demo.small_png)
         empty_world)
  = Ok (None, None) /\
  fst (process_image Demo.working (getvalue Demo.small_png) empty_world)
  = Ok (Some Demo.small_raster, Some Demo.small_raster) /\
  fst (process_image Demo.working (getvalue Demo.small_png)
         (snd (process_image Demo.failing_model (getvalue Demo.small_png)
                 empty_world)))
  = Ok (None, None) /\
  fst (process_image_body Demo.working (getvalue Demo.small_png)
         (snd (process_image Demo.failing_model (getvalue Demo.small_png)
                 empty_world)))
  = Ok (Some Demo.small_raster, Some Demo.small_raster).
Proof. repeat split; vm_compute; reflexivity. Qed.

(** C8 (amended). Given the same bytes twice, [process_image] returns the
    identical pair both times: a call always returns (failures are returned
    as [(None, None)], not raised), so its result is in the memo table
    afterwards, and the next call on these bytes, whatever the collaborators
    would do by then, is answered from the table: it invokes no stage,
    returns the same pair and replays the page elements of the first call.
    The pair is the one computed when the bytes were first seen; it need not
    be what a recomputation would give. *)
Theorem process_image_second_call_is_memoized
    (C C' : Collaborators) (image_bytes : bytes) (w : world) :
  exists images : pair_of_images,
    fst (process_image C image_bytes w) = Ok images /\
    fst (process_image C' image_bytes (snd (process_image C image_bytes w)))
    = Ok images /\
    new_events (snd (process_image C image_bytes w))
      (snd (process_image C' image_bytes
              (snd (process_image C image_bytes w))))
    = new_events w (snd (process_image C image_bytes w)) /\
    new_calls (snd (process_image C image_bytes w))
      (snd (process_image C' image_bytes
              (snd (process_image C image_bytes w))))
    = [].
Proof.
  assert (Hhit : forall D (w1 : world) value elements,
            memo w1 !! image_bytes = Some (value, elements) ->
            process_image D image_bytes w1
            = (Ok value, {| shown := shown w1 ++ elements; calls := calls w1;
                            memo := memo w1; ticks := ticks w1 |})).
  { intros D w1 value elements Hb. unfold process_image, st_cache_data.
    rewrite Hb. reflexivity. }
  destruct (memo w !! image_bytes) as [[value elements]|] eqn:Hb.
  - exists value. rewrite (Hhit C w value elements Hb). simpl.
    rewrite (Hhit C' _ value elements) by exact Hb. simpl.
    split; [reflexivity|]. split; [reflexivity|]. split.
    + unfold new_events. simpl. rewrite !drop_app_length. reflexivity.
    + unfold new_calls. simpl. apply drop_all.
  - destruct (body_value_ok C image_bytes) as (images & Hv).
    exists images.
    assert (Hfirst :
      process_image C image_bytes w
      = (Ok images,
         {| shown := shown w ++ body_events C image_bytes;
            calls := calls w ++ body_calls C image_bytes;
            memo := <[image_bytes := (images, body_events C image_bytes)]>
                      (memo w);
            ticks := ticks w |})).
    { unfold process_image, st_cache_data. rewrite Hb.
      rewrite process_image_body_run, Hv. simpl.
      rewrite drop_app_length. reflexivity. }
    rewrite Hfirst. simpl.
    rewrite (Hhit C' _ images (body_events C image_bytes))
      by (simpl; apply lookup_insert_eq).
    simpl. split; [reflexivity|]. split; [reflexivity|]. split.
    + unfold new_events. simpl. rewrite !drop_app_length. reflexivity.
    + unfold new_calls. simpl. apply drop_all.
Qed.

(** C9. In a run of [fix_image] the progress bar is given 0, 10, 30 and
    then, if processing succeeded, 90 and, if the result could be encoded,
    100: the values increase and stay between 0 and 100.  They are all set
    by [fix_image] itself; [process_image] does not touch the bar. *)
Theorem progress_is_increasing
    (C : Collaborators) (uploaded_file : UploadedFile) (w : world) :
  memo_ok C w ->
  exists w',
    fix_image C uploaded_file w = (Ok tt, w') /\
    (progress_values (new_events w w') = [0; 10; 30] \/
     progress_values (new_events w w') = [0; 10; 30; 90] \/
     progress_values (new_events w w') = [0; 10; 30; 90; 100]) /\
    increasing (progress_values (new_events w w')) /\
    Forall (fun v => 0 <= v <= 100) (progress_values (new_events w w')) /\
    progress_values
      (new_events w (snd (process_image C (getvalue uploaded_file) w))) = [].
Proof.
  intros Hok.
  destruct (fix_image_run C uploaded_file w Hok)
    as (w' & cs & Hrun & _ & Hshown & _).
  exists w'. split; [exact Hrun|].
  pose proof (body_no_progress C (getvalue uploaded_file)) as Hbody.
  assert (Hbar :
    progress_values (new_events w w') = [0; 10; 30] \/
    progress_values (new_events w w') = [0; 10; 30; 90] \/
    progress_values (new_events w w') = [0; 10; 30; 90; 100]).
  { rewrite (new_events_app w w' _ Hshown).
    destruct (body_cases C (getvalue uploaded_file))
      as [(e & _ & Hv & Hev & _)|[(image & e & _ & _ & Hv & Hev & _)
         |[(image & resized & e & _ & _ & _ & Hv & Hev & _)
          |(image & resized & result & _ & _ & _ & Hv & Hev & _)]]];
      rewrite Hv, Hev; simpl; auto.
    epilogue_cases; auto. }
  split; [exact Hbar|].
  split; [|split].
  - destruct Hbar as [-> |[-> | ->]]; simpl; lia.
  - destruct Hbar as [-> |[-> | ->]]; repeat constructor; lia.
  - destruct (process_image_run C (getvalue uploaded_file) w Hok)
      as (w2 & Hrun2 & Hshown2 & _).
    rewrite Hrun2. simpl. rewrite (new_events_app w w2 _ Hshown2).
    exact Hbody.
Qed.

Lemma progress_is_increasing_witness :
  memo_ok Demo.working empty_world /\
  exists w',
    fix_image Demo.working Demo.small_png empty_world = (Ok tt, w') /\
    (progress_values (new_events empty_world w') = [0; 10; 30] \/
     progress_values (new_events empty_world w') = [0; 10; 30; 90] \/
     progress_values (new_events empty_world w') = [0; 10; 30; 90; 100]) /\
    increasing (progress_values (new_events empty_world w')) /\
    Forall (fun v => 0 <= v <= 100)
      (progress_values (new_events empty_world w')) /\
    progress_values
      (new_events empty_world
         (snd (process_image Demo.working (getvalue Demo.small_png)
                 empty_world))) = [].
Proof.
  split; [apply memo_ok_empty|].
  apply (progress_is_increasing Demo.working Demo.small_png empty_world).
  apply memo_ok_empty.
Defined.

(** C2, as the specification words it, fails: when the removal model
    raises, the text of the exception is shown on the page and nothing is
    printed to the log. *)
Lemma removal_failure_text_is_shown :
  In (St_error "Image processing error: out of memory")
    (shown (snd (fix_image Demo.failing_model Demo.small_png empty_world))) /\
  ~ In (Print_traceback Demo.out_of_memory)
    (shown (snd (fix_image Demo.failing_model Demo.small_png empty_world))).
Proof.
  assert (H : shown (snd (fix_image Demo.failing_model Demo.small_png
                            empty_world))
              = [Sidebar_progress 0; Status_text (Msg "🔄 Reading image...");
                 Progress 10; Status_text (Msg "⚙️ Processing image...");
                 Progress 30;
                 St_error "Image processing error: out of memory"]).
  { vm_compute. reflexivity. }
  rewrite H. split.
  - simpl. auto 10.
  - simpl. intros [Hc|[Hc|[Hc|[Hc|[Hc|[Hc|[]]]]]]]; discriminate Hc.
Qed.

(** C2 (amended). When the removal model raises, [process_image] catches
    the exception and the page shows "Image processing error: " followed by
    the text of the exception; nothing is printed to the log, no raster and
    no download button is shown, and [fix_image] returns. *)
Theorem removal_failure_report
    (C : Collaborators) (uploaded_file : UploadedFile) (w : world)
    (original resized : Image) (e : exn) :
  memo_ok C w ->
  Image_open C (getvalue uploaded_file) = Ok original ->
  resize_image (Image_resize C) original MAX_IMAGE_SIZE = Ok resized ->
  remove C resized = Raise e ->
  exists w',
    fix_image C uploaded_file w = (Ok tt, w') /\
    new_events w w'
    = [Sidebar_progress 0; Status_text (Msg "🔄 Reading image...");
       Progress 10; Status_text (Msg "⚙️ Processing image..."); Progress 30;
       St_error (String.append "Image processing error: " (str e))] /\
    Forall (fun ev => on_page ev = true) (new_events w w') /\
    Forall (fun ev => is_output ev = false) (new_events w w').
Proof.
  intros Hok Hopen Hresize Hremove.
  destruct (fix_image_run C uploaded_file w Hok)
    as (w' & cs & Hrun & _ & Hshown & _).
  destruct (body_removal_failure C (getvalue uploaded_file) original resized
              e Hopen Hresize Hremove) as (Hv & Hev & _).
  rewrite Hv, Hev in Hshown. simpl in Hshown.
  exists w'. split; [exact Hrun|].
  rewrite (new_events_app w w' _ Hshown).
  split; [reflexivity|]. split; repeat constructor.
Qed.

Lemma removal_failure_report_witness :
  memo_ok Demo.failing_model empty_world /\
  remove Demo.failing_model Demo.small_raster = Raise Demo.out_of_memory /\
  exists w',
    fix_image Demo.failing_model Demo.small_png empty_world = (Ok tt, w') /\
    new_events empty_world w'
    = [Sidebar_progress 0; Status_text (Msg "🔄 Reading image...");
       Progress 10; Status_text (Msg "⚙️ Processing image..."); Progress 30;
       St_error "Image processing error: out of memory"] /\
    Forall (fun ev => on_page ev = true) (new_events empty_world w') /\
    Forall (fun ev => is_output ev = false) (new_events empty_world w').
Proof.
  split; [apply memo_ok_empty|]. split; [reflexivity|].
  apply (removal_failure_report Demo.failing_model Demo.small_png empty_world
           Demo.small_raster Demo.small_raster Demo.out_of_memory).
  - apply memo_ok_empty.
  - reflexivity.
  - reflexivity.
  - reflexivity.
Defined.

(** * Further properties *)

(** ** The resizer *)

Lemma resize_image_short_side_witness :
  exists n : Z,
    resize_image Demo.resize (Demo.raster 2124 1062) MAX_IMAGE_SIZE
    = Demo.resize (Demo.raster 2124 1062) (MAX_IMAGE_SIZE, n) /\
    0 <= n /\
    truncated_scale 1062 MAX_IMAGE_SIZE 2124 n.
Proof.
  apply (resize_image_short_side Demo.resize (Demo.raster 2124 1062)
           MAX_IMAGE_SIZE 2124 1062).
  - reflexivity.
  - split; reflexivity.
  - split; reflexivity.
  - split; [reflexivity|vm_compute; discriminate].
  - left. reflexivity.
Defined.

Lemma resize_image_collapses_when_witness :
  resize_image Demo.resize (Demo.raster 3 7000) MAX_IMAGE_SIZE
  = Demo.resize (Demo.raster 3 7000) (0, MAX_IMAGE_SIZE).
Proof.
  apply (resize_image_collapses_when Demo.resize (Demo.raster 3 7000)
           MAX_IMAGE_SIZE 3 7000).
  - reflexivity.
  - split; reflexivity.
  - split; reflexivity.
  - split; [reflexivity|vm_compute; discriminate].
  - right. reflexivity.
  - reflexivity.
Defined.

(** X3. When the width or the height exceeds the bound and the longer side
    is at most half of [M] times the shorter one, or at most [M] times the
    shorter one without dividing the product, both sides of the size handed
    to the resampler are at least 1. *)
Theorem resize_image_sides_positive
    (R : Image -> Z * Z -> result Image) (image : Image)
    (M width height : Z) :
  size image = (width, height) ->
  0 < width < 2 ^ 31 -> 0 < height < 2 ^ 31 -> 0 < M <= 2 ^ 19 ->
  M < width \/ M < height ->
  2 * Z.max width height <= Z.min width height * M \/
  (Z.max width height <= Z.min width height * M /\
   (Z.min width height * M) mod Z.max width height <> 0) ->
  exists new_width new_height : Z,
    resize_image R image M = R image (new_width, new_height) /\
    1 <= new_width /\ 1 <= new_height.
Proof.
  intros Hsz Hw Hh HM Hbig Hwide.
  destruct (resize_image_request R image M width height Hsz Hw Hh HM Hbig)
    as (n & Hres & Hb).
  assert (Hn : forall short long,
             0 < short -> 0 < long ->
             short = Z.min width height -> long = Z.max width height ->
             short * M - long <= n * long <= short * M -> 1 <= n).
  { intros short long Hs Hl -> -> Hbounds.
    destruct Hwide as [H2|[H1 Hnd]].
    - nia.
    - destruct (bounds_truncated_scale (Z.min width height) M
                  (Z.max width height) n) as [[->|[_ Hmod]] _];
        [lia|nia|exact Hbounds| |contradiction].
      apply Z.div_le_lower_bound; lia. }
  destruct (width >? height) eqn:Hgt.
  - apply Z.gtb_lt in Hgt. exists M, n. split; [exact Hres|].
    split; [lia|]. apply (Hn height width); lia.
  - assert (Hle : width <= height).
    { destruct (Z.gtb_spec width height); [discriminate|assumption]. }
    exists n, M. split; [exact Hres|].
    split; [|lia]. apply (Hn width height); lia.
Qed.

Lemma resize_image_sides_positive_witness :
  exists new_width new_height : Z,
    resize_image Demo.resize (Demo.raster 3000 1999) MAX_IMAGE_SIZE
    = Demo.resize (Demo.raster 3000 1999) (new_width, new_height) /\
    1 <= new_width /\ 1 <= new_height.
Proof.
  apply (resize_image_sides_positive Demo.resize (Demo.raster 3000 1999)
           MAX_IMAGE_SIZE 3000 1999).
  - reflexivity.
  - split; reflexivity.
  - split; reflexivity.
  - split; [reflexivity|vm_compute; discriminate].
  - left. reflexivity.
  - left. vm_compute. discriminate.
Defined.

(** X4. The resizer only scales down: when the width or the height exceeds
    the bound, both sides of the size handed to the resampler are strictly
    smaller than the sides of the raster. *)
Theorem resize_image_never_enlarges
    (R : Image -> Z * Z -> result Image) (image : Image)
    (M width height : Z) :
  size image = (width, height) ->
  0 < width < 2 ^ 31 -> 0 < height < 2 ^ 31 -> 0 < M <= 2 ^ 19 ->
  M < width \/ M < height ->
  exists new_width new_height : Z,
    resize_image R image M = R image (new_width, new_height) /\
    0 <= new_width < width /\ 0 <= new_height < height.
Proof.
  intros Hsz Hw Hh HM Hbig.
  destruct (resize_image_request R image M width height Hsz Hw Hh HM Hbig)
    as (n & Hres & Hb).
  destruct (width >? height) eqn:Hgt.
  - apply Z.gtb_lt in Hgt. exists M, n. split; [exact Hres|].
    split; [lia|]. split; nia.
  - assert (Hle : width <= height).
    { destruct (Z.gtb_spec width height); [discriminate|assumption]. }
    exists n, M. split; [exact Hres|].
    split; [|lia]. split; nia.
Qed.

Lemma resize_image_never_enlarges_witness :
  exists new_width new_height : Z,
    resize_image Demo.resize (Demo.raster 2105 2105) MAX_IMAGE_SIZE
    = Demo.resize (Demo.raster 2105 2105) (new_width, new_height) /\
    0 <= new_width < 2105 /\ 0 <= new_height < 2105.
Proof.
  apply (resize_image_never_enlarges Demo.resize (Demo.raster 2105 2105)
           MAX_IMAGE_SIZE 2105 2105).
  - reflexivity.
  - split; reflexivity.
  - split; reflexivity.
  - split; [reflexivity|vm_compute; discriminate].
  - left. reflexivity.
Defined.

(** What a size-respecting resampler returns for an oversized raster fits
    the bound, so a second call takes the first branch. *)
Lemma resize_image_result_within_bound
    (R : Image -> Z * Z -> result Image) (image resized : Image)
    (M width height : Z) :
  (forall img sz r, R img sz = Ok r -> size r = sz) ->
  size image = (width, height) ->
  0 < width < 2 ^ 31 -> 0 < height < 2 ^ 31 -> 0 < M <= 2 ^ 19 ->
  M < width \/ M < height ->
  resize_image R image M = Ok resized ->
  resize_image R resized M = Ok resized.
Proof.
  intros HR Hsz Hw Hh HM Hbig Hres.
  destruct (resize_image_request R image M width height Hsz Hw Hh HM Hbig)
    as (n & Hreq & Hb).
  rewrite Hreq in Hres. apply HR in Hres.
  assert (Hn : n <= M).
  { destruct (width >? height) eqn:Hgt.
    - apply Z.gtb_lt in Hgt. nia.
    - destruct (Z.gtb_spec width height); [discriminate|]. nia. }
  unfold resize_image. rewrite Hres.
  destruct (width >? height).
  - replace (M <=? M) with true by (symmetry; apply Z.leb_le; lia).
    replace (n <=? M) with true by (symmetry; apply Z.leb_le; lia).
    reflexivity.
  - replace (M <=? M) with true by (symmetry; apply Z.leb_le; lia).
    replace (n <=? M) with true by (symmetry; apply Z.leb_le; lia).
    reflexivity.
Qed.

(** X5. Resizing is idempotent: with a resampler that returns rasters of the
    size it is asked for, what [resize_image] returns is returned unchanged
    by a second call with the same bound. *)
Theorem resize_image_idempotent
    (R : Image -> Z * Z -> result Image) (image resized : Image)
    (M width height : Z) :
  (forall img sz r, R img sz = Ok r -> size r = sz) ->
  size image = (width, height) ->
  0 < width < 2 ^ 31 -> 0 < height < 2 ^ 31 -> 0 < M <= 2 ^ 19 ->
  resize_image R image M = Ok resized ->
  resize_image R resized M = Ok resized.
Proof.
  intros HR Hsz Hw Hh HM Hres.
  assert (Hid : forall img, fst (size img) <= M -> snd (size img) <= M ->
                            resize_image R img M = Ok img).
  { intros img H1 H2. unfold resize_image.
    destruct (size img) as [w h]. simpl in H1, H2.
    replace (w <=? M) with true by (symmetry; apply Z.leb_le; lia).
    replace (h <=? M) with true by (symmetry; apply Z.leb_le; lia).
    reflexivity. }
  destruct (Z_le_gt_dec width M) as [Hwm|Hwm];
    [destruct (Z_le_gt_dec height M) as [Hhm|Hhm]|].
  - rewrite Hid in Hres by (rewrite Hsz; simpl; lia).
    injection Hres as <-. apply Hid; rewrite Hsz; simpl; lia.
  - apply (resize_image_result_within_bound R image resized M width height);
      solve [assumption | lia].
  - apply (resize_image_result_within_bound R image resized M width height);
      solve [assumption | lia].
Qed.

Lemma resize_image_idempotent_witness :
  resize_image Demo.resize (Demo.raster 2000 1332) MAX_IMAGE_SIZE
  = Ok (Demo.raster 2000 1332).
Proof.
  apply (resize_image_idempotent Demo.resize (Demo.raster 3000 1999)
           (Demo.raster 2000 1332) MAX_IMAGE_SIZE 3000 1999).
  - intros img sz r H. injection H as <-. reflexivity.
  - reflexivity.
  - split; reflexivity.
  - split; reflexivity.
  - split; [reflexivity|vm_compute; discriminate].
  - vm_compute. reflexivity.
Defined.

(** The exceptions of the three operations of [scale_side]. *)
Lemma int_truediv_raises (a b : Z) (e : exn) :
  b <> 0 -> Py.int_truediv a b = Raise e -> exn_class e = "OverflowError".
Proof.
  intros Hb. unfold Py.int_truediv.
  replace (b =? 0) with false by (symmetry; apply Z.eqb_neq; exact Hb).
  destruct (a =? 0); [discriminate|].
  destruct (SFdiv_core_binary Py.prec Py.emax (Z.abs a) 0 (Z.abs b) 0)
    as [[mz ez] lz].
  destruct (binary_round_aux Py.prec Py.emax (xorb (a <? 0) (b <? 0)) mz ez lz);
    try discriminate.
  intros H. injection H as <-. reflexivity.
Qed.

Lemma int_mul_float_raises (n : Z) (x : Py.float) (e : exn) :
  Py.int_mul_float n x = Raise e -> exn_class e = "OverflowError".
Proof.
  unfold Py.int_mul_float, Py.float_of_int.
  destruct (binary_normalize Py.prec Py.emax n 0 false); simpl;
    try discriminate.
  intros H. injection H as <-. reflexivity.
Qed.

Lemma int_of_float_raises (x : Py.float) (e : exn) :
  Py.int_of_float x = Raise e ->
  exn_class e = "OverflowError" \/ exn_class e = "ValueError".
Proof.
  destruct x; simpl; try discriminate; intros H; injection H as <-; auto.
Qed.

(** X6. With a bound that is not negative, the division of lines 37 and 40
    never divides by zero, whatever the sides of the raster: once one side
    exceeds the bound, the divisor, which is the longer side, is positive.
    An exception of the size computation is never a [ZeroDivisionError]. *)
Theorem new_size_never_divides_by_zero (width height max_size : Z) (e : exn) :
  0 <= max_size ->
  max_size < width \/ max_size < height ->
  new_size width height max_size = Raise e ->
  exn_class e <> "ZeroDivisionError".
Proof.
  intros HM Hbig.
  assert (Hscale : forall side other,
             other <> 0 -> scale_side side max_size other = Raise e ->
             exn_class e <> "ZeroDivisionError").
  { intros side other Ho. unfold scale_side.
    destruct (Py.int_truediv max_size other) as [ratio|e1] eqn:Hq; simpl.
    - destruct (Py.int_mul_float side ratio) as [scaled|e2] eqn:Hp; simpl.
      + intros H. apply int_of_float_raises in H. destruct H as [-> | ->];
          discriminate.
      + intros H. injection H as <-. apply int_mul_float_raises in Hp.
        rewrite Hp. discriminate.
    - intros H. injection H as <-. apply int_truediv_raises in Hq; [|exact Ho].
      rewrite Hq. discriminate. }
  unfold new_size. destruct (width >? height) eqn:Hgt.
  - apply Z.gtb_lt in Hgt.
    destruct (scale_side height max_size width) as [n|e1] eqn:Hs; simpl;
      [discriminate|].
    intros H. injection H as <-. apply (Hscale height width); [lia|exact Hs].
  - assert (Hle : width <= height).
    { destruct (Z.gtb_spec width height); [discriminate|assumption]. }
    destruct (scale_side width max_size height) as [n|e1] eqn:Hs; simpl;
      [discriminate|].
    intros H. injection H as <-. apply (Hscale width height); [lia|exact Hs].
Qed.

Lemma new_size_never_divides_by_zero_witness :
  new_size (2 * 10 ^ 400) (10 ^ 400) MAX_IMAGE_SIZE
  = Raise (Exception "OverflowError" "int too large to convert to float") /\
  exn_class (Exception "OverflowError" "int too large to convert to float")
  <> "ZeroDivisionError".
Proof.
  assert (H : new_size (2 * 10 ^ 400) (10 ^ 400) MAX_IMAGE_SIZE
              = Raise (Exception "OverflowError"
                         "int too large to convert to float")).
  { vm_compute. reflexivity. }
  split; [exact H|].
  apply (new_size_never_divides_by_zero (2 * 10 ^ 400) (10 ^ 400)
           MAX_IMAGE_SIZE _ ltac:(vm_compute; discriminate)
           ltac:(left; reflexivity) H).
Defined.

(** With a negative bound the divisor can be zero: an empty raster and the
    bound -1. *)
Example new_size_negative_bound :
  new_size 0 0 (-1) = Raise (Exception "ZeroDivisionError" "division by zero").
Proof. vm_compute. reflexivity. Qed.

(** ** The page handlers, whatever the memo table holds *)

Section PageRuns.

Variable C : Collaborators.

(** The world in which [fix_image] calls [process_image]. *)
Lemma fix_image_world (f : UploadedFile) (w : world) :
  let w1 := {| shown := shown w ++ prelude; calls := calls w;
               memo := memo w; ticks := S (ticks w) |} in
  let p := process_image C (getvalue f) w1 in
  fst (fix_image C f w) = Ok tt /\
  memo (snd (fix_image C f w)) = memo (snd p) /\
  (calls (snd (fix_image C f w)) = calls (snd p) \/
   calls (snd (fix_image C f w)) = calls (snd p) ++ [Encode]).
Proof.
  intros w1 p.
  unfold fix_image, try_except, bind, read_clock, emit. simpl.
  rewrite <- !app_assoc. simpl. fold prelude. fold w1. fold p.
  destruct p as [[[[original|] [removed|]]|e] w2]; simpl; auto.
  unfold col_image, lift, call, bind, emit. simpl.
  destruct (st_image C original) as [[]|e1]; simpl; auto.
  destruct (st_image C removed) as [[]|e2]; simpl; auto.
  destruct (convert_image C removed) as [data|e3]; simpl; auto.
Qed.


Lemma process_image_memo_grows (b : bytes) (w : world) :
  memo w ⊆ memo (snd (process_image C b w)).
Proof.
  unfold process_image, st_cache_data.
  destruct (memo w !! b) as [[value elements]|] eqn:Hb; [reflexivity|].
  rewrite process_image_body_run.
  destruct (body_value C b) as [value|e]; simpl; [|reflexivity].
  apply insert_subseteq. exact Hb.
Qed.

End PageRuns.

(** X7. No exception leaves the script: whatever is uploaded, whatever the
    memo table holds and whatever the collaborators do, the run of the
    script returns. *)
Theorem script_never_raises
    (C : Collaborators) (uploaded : option UploadedFile) (w : world) :
  fst (script C uploaded w) = Ok tt.
Proof.
  unfold script. destruct uploaded as [f|]; [|reflexivity].
  destruct (file_size f >? MAX_FILE_SIZE); [reflexivity|].
  apply fix_image_world.
Qed.

(** X8. The memo table never loses or changes an entry: every entry present
    before a run of the script is present, with the same value, after it. *)
Theorem script_memo_never_shrinks
    (C : Collaborators) (uploaded : option UploadedFile) (w : world) :
  memo w ⊆ memo (snd (script C uploaded w)).
Proof.
  unfold script. destruct uploaded as [f|]; [|reflexivity].
  destruct (file_size f >? MAX_FILE_SIZE); [reflexivity|].
  destruct (fix_image_world C f w) as (_ & -> & _).
  apply (process_image_memo_grows C (getvalue f)
           {| shown := shown w ++ prelude; calls := calls w;
              memo := memo w; ticks := S (ticks w) |}).
Qed.



(** X10. When the two rasters have been displayed and the result cannot be
    encoded, the exception reaches the handler of [fix_image]: the two
    rasters are already on the page, the bar stays at 90, no download button
    and no completion message appear, the page gets the two fixed messages,
    and the exception goes to the log only. *)
Theorem encode_failure_report
    (C : Collaborators) (uploaded_file : UploadedFile) (w : world)
    (original resized removed : Image) (e : exn) :
  memo_ok C w ->
  Image_open C (getvalue uploaded_file) = Ok original ->
  resize_image (Image_resize C) original MAX_IMAGE_SIZE = Ok resized ->
  remove C resized = Ok removed ->
  st_image C original = Ok tt ->
  st_image C removed = Ok tt ->
  convert_image C removed = Raise e ->
  exists w',
    fix_image C uploaded_file w = (Ok tt, w') /\
    new_events w w'
    = [Sidebar_progress 0; Status_text (Msg "🔄 Reading image...");
       Progress 10; Status_text (Msg "⚙️ Processing image..."); Progress 30;
       Progress 90; Status_text (Msg "📸 Displaying result...");
       Col_image 1 original "Original Image";
       Col_image 2 removed "Background Removed";
       St_error "An unexpected error occurred.";
       Sidebar_error "⚠️ Processing failed.";
       Print_traceback e].
Proof.
  intros Hok Hopen Hresize Hremove Hshow1 Hshow2 Hsave.
  destruct (body_success C (getvalue uploaded_file) original resized removed
              Hopen Hresize Hremove) as (Hv & Hev & _).
  destruct (fix_image_run C uploaded_file w Hok)
    as (w' & cs & Hrun & _ & Hshown & _).
  exists w'. split; [exact Hrun|].
  apply new_events_app. rewrite Hshown, Hv, Hev. simpl.
  rewrite Hshow1, Hshow2, Hsave. reflexivity.
Qed.

Lemma encode_failure_report_witness :
  exists w',
    fix_image Demo.failing_encoder Demo.small_png empty_world = (Ok tt, w') /\
    new_events empty_world w'
    = [Sidebar_progress 0; Status_text (Msg "🔄 Reading image...");
       Progress 10; Status_text (Msg "⚙️ Processing image..."); Progress 30;
       Progress 90; Status_text (Msg "📸 Displaying result...");
       Col_image 1 Demo.small_raster "Original Image";
       Col_image 2 Demo.small_raster "Background Removed";
       St_error "An unexpected error occurred.";
       Sidebar_error "⚠️ Processing failed.";
       Print_traceback Demo.disk_full].
Proof.
  apply (encode_failure_report Demo.failing_encoder Demo.small_png empty_world
           Demo.small_raster Demo.small_raster Demo.small_raster
           Demo.disk_full).
  - apply memo_ok_empty.
  - reflexivity.
  - reflexivity.
  - reflexivity.
  - reflexivity.
  - reflexivity.
  - reflexivity.
Defined.

(** X11. A raster whose longer side is more than 2000 times its shorter
    side is never processed when the resampler refuses an empty size: the
    size asked for has a zero side, the refusal is shown on the page as an
    image processing error, and the removal model is not invoked. *)
Theorem thin_raster_is_not_processed
    (C : Collaborators) (uploaded_file : UploadedFile) (w : world)
    (original : Image) (width height : Z) (e : exn) :
  memo_ok C w ->
  Image_open C (getvalue uploaded_file) = Ok original ->
  size original = (width, height) ->
  0 < width < 2 ^ 31 -> 0 < height < 2 ^ 31 ->
  Z.min width height * 2000 < Z.max width height ->
  Image_resize C original
    (if width >? height then (2000, 0) else (0, 2000)) = Raise e ->
  exists w',
    fix_image C uploaded_file w = (Ok tt, w') /\
    new_events w w'
    = [Sidebar_progress 0; Status_text (Msg "🔄 Reading image...");
       Progress 10; Status_text (Msg "⚙️ Processing image..."); Progress 30;
       St_error (String.append "Image processing error: " (str e))] /\
    ~ In Remove (new_calls w w').
Proof.
  intros Hok Hopen Hsz Hw Hh Hthin Hrefuse.
  assert (Hresize : resize_image (Image_resize C) original MAX_IMAGE_SIZE
                    = Raise e).
  { destruct (resize_image_request (Image_resize C) original MAX_IMAGE_SIZE
                width height Hsz Hw Hh) as (n & Hreq & Hb).
    - split; [reflexivity|vm_compute; discriminate].
    - unfold MAX_IMAGE_SIZE. lia.
    - rewrite Hreq, <- Hrefuse. unfold MAX_IMAGE_SIZE in *.
      destruct (width >? height) eqn:Hgt.
      + apply Z.gtb_lt in Hgt. replace n with 0; [reflexivity|]. nia.
      + destruct (Z.gtb_spec width height); [discriminate|].
        replace n with 0; [reflexivity|]. nia. }
  assert (Hbody :
    body_value C (getvalue uploaded_file) = Ok (None, None) /\
    body_events C (getvalue uploaded_file)
    = [St_error (String.append "Image processing error: " (str e))] /\
    body_calls C (getvalue uploaded_file) = [Decode; Resize]).
  { unfold body_value, body_events, body_calls, process_image_body,
      try_except, bind, call, emit, ret.
    rewrite Hopen. simpl. rewrite Hresize. simpl. auto. }
  destruct Hbody as (Hv & Hev & Hbc).
  destruct (fix_image_run C uploaded_file w Hok)
    as (w' & cs & Hrun & _ & Hshown & Hcs & Hcalls).
  exists w'. split; [exact Hrun|].
  rewrite Hv, Hev in Hshown. rewrite Hv in Hcalls.
  simpl in Hshown, Hcalls. rewrite app_nil_r in Hcalls.
  split; [apply new_events_app; exact Hshown|].
  rewrite (new_calls_app w w' cs Hcalls).
  destruct Hcs as [-> | ->]; [intros []|].
  rewrite Hbc. simpl. intros [H|[H|[]]]; discriminate H.
Qed.

Lemma thin_raster_is_not_processed_witness :
  exists w',
    fix_image Demo.strict Demo.thin_png empty_world = (Ok tt, w') /\
    new_events empty_world w'
    = [Sidebar_progress 0; Status_text (Msg "🔄 Reading image...");
       Progress 10; Status_text (Msg "⚙️ Processing image..."); Progress 30;
       St_error "Image processing error: height and width must be > 0"] /\
    ~ In Remove (new_calls empty_world w').
Proof.
  apply (thin_raster_is_not_processed Demo.strict Demo.thin_png empty_world
           Demo.thin_raster 2001 1 Demo.empty_size).
  - apply memo_ok_empty.
  - reflexivity.
  - reflexivity.
  - split; reflexivity.
  - split; reflexivity.
  - reflexivity.
  - reflexivity.
Defined.

(** X13. A run of [fix_image] ends in exactly one of two ways: with the
    completion message, the bar at 100 and no error message; or with exactly
    one error message on the page, no completion message and the bar below
    100.  No failure is silent and none is reported twice. *)
Theorem fix_image_completes_or_reports_once
    (C : Collaborators) (uploaded_file : UploadedFile) (w : world) :
  memo_ok C w ->
  (existsb is_completion (new_events w (snd (fix_image C uploaded_file w)))
   = true /\
   List.filter is_error (new_events w (snd (fix_image C uploaded_file w)))
   = [] /\
   In (Progress 100) (new_events w (snd (fix_image C uploaded_file w)))) \/
  (existsb is_completion (new_events w (snd (fix_image C uploaded_file w)))
   = false /\
   length (List.filter is_error
             (new_events w (snd (fix_image C uploaded_file w)))) = 1%nat /\
   ~ In (Progress 100) (new_events w (snd (fix_image C uploaded_file w)))).
Proof.
  intros Hok.
  destruct (fix_image_run C uploaded_file w Hok)
    as (w' & cs & Hrun & _ & Hshown & _).
  rewrite Hrun. simpl snd. rewrite (new_events_app w w' _ Hshown).
  destruct (body_cases C (getvalue uploaded_file))
    as [(e & _ & Hv & Hev & _)|[(image & e & _ & _ & Hv & Hev & _)
       |[(image & resized & e & _ & _ & _ & Hv & Hev & _)
        |(image & resized & result & _ & _ & _ & Hv & Hev & _)]]];
    rewrite Hv, Hev; simpl;
    try (right; split; [reflexivity|]; split; [reflexivity|];
         intros Hin;
         repeat (destruct Hin as [Hin|Hin]; [discriminate Hin|]);
         destruct Hin).
  epilogue_cases;
    try (left; split; [reflexivity|]; split; [reflexivity|]; auto 20; fail);
    right; (split; [reflexivity|]); (split; [reflexivity|]);
    intros Hin;
    repeat (destruct Hin as [Hin|Hin]; [discriminate Hin|]);
    destruct Hin.
Qed.

Lemma fix_image_completes_or_reports_once_witness :
  (existsb is_completion
     (new_events empty_world
        (snd (fix_image Demo.working Demo.not_an_image empty_world))) = true /\
   List.filter is_error
     (new_events empty_world
        (snd (fix_image Demo.working Demo.not_an_image empty_world))) = [] /\
   In (Progress 100)
     (new_events empty_world
        (snd (fix_image Demo.working Demo.not_an_image empty_world)))) \/
  (existsb is_completion
     (new_events empty_world
        (snd (fix_image Demo.working Demo.not_an_image empty_world))) = false /\
   length (List.filter is_error
             (new_events empty_world
                (snd (fix_image Demo.working Demo.not_an_image empty_world))))
   = 1%nat /\
   ~ In (Progress 100)
     (new_events empty_world
        (snd (fix_image Demo.working Demo.not_an_image empty_world)))).
Proof.
  apply (fix_image_completes_or_reports_once Demo.working Demo.not_an_image
           empty_world).
  apply memo_ok_empty.
Defined.



(** The four stages can all succeed without the run completing: the 2001 x 2
    raster is decoded, resized to 2000 x 1, processed and can be encoded,
    but the image element refuses the result. *)
Example stages_succeed_without_completion :
  Image_open Demo.narrow_display (getvalue Demo.flat_png)
  = Ok Demo.flat_raster /\
  resize_image (Image_resize Demo.narrow_display) Demo.flat_raster
    MAX_IMAGE_SIZE = Ok Demo.flat_resized /\
  remove Demo.narrow_display Demo.flat_resized = Ok Demo.flat_resized /\
  convert_image Demo.narrow_display Demo.flat_resized = Ok [] /\
  existsb is_completion
    (new_events empty_world
       (snd (fix_image Demo.narrow_display Demo.flat_png empty_world)))
  = false.
Proof. repeat split; vm_compute; reflexivity. Qed.

(** X15. What the download button offers is the PNG encoding of the raster
    shown as "Background Removed", under the name removed_background.png
    and the type image/png. *)
Theorem download_is_the_shown_result
    (C : Collaborators) (uploaded_file : UploadedFile) (w : world)
    (label : string) (data : bytes) (name mime : string) :
  memo_ok C w ->
  In (Download_button label data name mime)
    (new_events w (snd (fix_image C uploaded_file w))) ->
  name = "removed_background.png" /\ mime = "image/png" /\
  exists removed : Image,
    In (Col_image 2 removed "Background Removed")
      (new_events w (snd (fix_image C uploaded_file w))) /\
    convert_image C removed = Ok data.
Proof.
  intros Hok.
  destruct (fix_image_run C uploaded_file w Hok)
    as (w' & cs & Hrun & _ & Hshown & _).
  rewrite Hrun. simpl snd. rewrite (new_events_app w w' _ Hshown).
  destruct (body_cases C (getvalue uploaded_file))
    as [(e & _ & Hv & Hev & _)|[(image & e & _ & _ & Hv & Hev & _)
       |[(image & resized & e & _ & _ & _ & Hv & Hev & _)
        |(image & resized & result & _ & _ & _ & Hv & Hev & _)]]];
    rewrite Hv, Hev; simpl;
    try (intros Hin;
         repeat (destruct Hin as [Hin|Hin]; [discriminate Hin|]);
         destruct Hin).
  unfold failure_report.
  destruct (st_image C image) as [[]|e1]; simpl;
    [destruct (st_image C result) as [[]|e2]; simpl;
     [destruct (convert_image C result) as [png|e] eqn:Hs; simpl|]|];
    intros Hin;
    repeat (destruct Hin as [Hin|Hin];
            [try discriminate Hin|]); try (destruct Hin; fail).
  injection Hin as _ <- <- <-.
  split; [reflexivity|]. split; [reflexivity|].
  exists result. split; [|exact Hs]. auto 20.
Qed.

Lemma download_is_the_shown_result_witness :
  "removed_background.png" = "removed_background.png" /\
  "image/png" = "image/png" /\
  exists removed : Image,
    In (Col_image 2 removed "Background Removed")
      (new_events empty_world
         (snd (fix_image Demo.working Demo.small_png empty_world))) /\
    convert_image Demo.working removed = Ok [xff; x00].
Proof.
  apply (download_is_the_shown_result Demo.working Demo.small_png empty_world
           "⬇️ Download Output (PNG)" [xff; x00]
           "removed_background.png" "image/png").
  - apply memo_ok_empty.
  - vm_compute. auto 20.
Defined.

(** X16. The stages are invoked in the order of the pipeline and each only
    after those before it have succeeded: the stages of a run are an
    initial part of decode, resize, remove, encode or, when the bytes were
    in the memo table, the encoder alone or nothing. *)
Theorem stages_follow_the_pipeline
    (C : Collaborators) (uploaded_file : UploadedFile) (w : world) :
  memo_ok C w ->
  In (new_calls w (snd (fix_image C uploaded_file w)))
    [[]; [Decode]; [Decode; Resize]; [Decode; Resize; Remove];
     [Decode; Resize; Remove; Encode]; [Encode]].
Proof.
  intros Hok.
  destruct (fix_image_run C uploaded_file w Hok)
    as (w' & cs & Hrun & _ & _ & Hcs & Hcalls).
  rewrite Hrun. simpl snd. rewrite (new_calls_app w w' _ Hcalls).
  destruct (body_cases C (getvalue uploaded_file))
    as [(e & _ & Hv & _ & Hbc)|[(image & e & _ & _ & Hv & _ & Hbc)
       |[(image & resized & e & _ & _ & _ & Hv & _ & Hbc)
        |(image & resized & result & _ & _ & _ & Hv & _ & Hbc)]]];
    rewrite Hv; rewrite Hbc in Hcs; destruct Hcs as [-> | ->]; simpl;
    auto 10;
    destruct (st_image C image) as [[]|e1]; simpl; auto 10;
    destruct (st_image C result) as [[]|e2]; simpl; auto 10.
Qed.

Lemma stages_follow_the_pipeline_witness :
  In (new_calls empty_world
        (snd (fix_image Demo.failing_model Demo.small_png empty_world)))
    [[]; [Decode]; [Decode; Resize]; [Decode; Resize; Remove];
     [Decode; Resize; Remove; Encode]; [Encode]].
Proof.
  apply (stages_follow_the_pipeline Demo.failing_model Demo.small_png
           empty_world).
  apply memo_ok_empty.
Defined.

(** X17. The size limit is inclusive: an upload is turned away with the
    size message exactly when it has more than 10 * 1024 * 1024 bytes; one
    of exactly that length goes through [fix_image]. *)
Theorem upload_rejected_iff_over_limit
    (C : Collaborators) (uploaded : UploadedFile) (w : world) :
  memo_ok C w ->
  new_events w (snd (script C (Some uploaded) w))
  = [St_error "File too large. Please upload an image smaller than 10MB."]
  <-> 10 * 1024 * 1024 < file_size uploaded.
Proof.
  intros Hok. unfold script.
  destruct (file_size uploaded >? MAX_FILE_SIZE) eqn:Hgt.
  - apply Z.gtb_lt in Hgt. split; [intros _; exact Hgt|intros _].
    apply new_events_app. reflexivity.
  - assert (Hle : file_size uploaded <= 10 * 1024 * 1024).
    { destruct (Z.gtb_spec (file_size uploaded) MAX_FILE_SIZE);
        [discriminate|assumption]. }
    split; [|lia].
    destruct (fix_image_run C uploaded w Hok)
      as (w' & cs & Hrun & _ & Hshown & _).
    rewrite Hrun. simpl snd. rewrite (new_events_app w w' _ Hshown).
    discriminate.
Qed.

Lemma upload_rejected_iff_over_limit_witness :
  new_events empty_world
    (snd (script Demo.working (Some Demo.small_png) empty_world))
  = [St_error "File too large. Please upload an image smaller than 10MB."]
  <-> 10 * 1024 * 1024 < file_size Demo.small_png.
Proof.
  apply (upload_rejected_iff_over_limit Demo.working Demo.small_png
           empty_world).
  apply memo_ok_empty.
Defined.

(** What a size-respecting resampler returns fits the bound. *)
Lemma resize_image_fits
    (R : Image -> Z * Z -> result Image) (image resized : Image) (M : Z) :
  (forall img sz r, R img sz = Ok r -> size r = sz) ->
  0 < fst (size image) < 2 ^ 31 -> 0 < snd (size image) < 2 ^ 31 ->
  0 < M <= 2 ^ 19 ->
  resize_image R image M = Ok resized ->
  fst (size resized) <= M /\ snd (size resized) <= M.
Proof.
  intros HR Hw Hh HM Hres.
  destruct (size image) as [width height] eqn:Hsz. simpl in Hw, Hh.
  destruct (Z_le_gt_dec width M) as [Hwm|Hwm];
    [destruct (Z_le_gt_dec height M) as [Hhm|Hhm]|].
  - unfold resize_image in Hres. rewrite Hsz in Hres.
    replace (width <=? M) with true in Hres
      by (symmetry; apply Z.leb_le; lia).
    replace (height <=? M) with true in Hres
      by (symmetry; apply Z.leb_le; lia).
    injection Hres as <-. rewrite Hsz. simpl. lia.
  - destruct (resize_image_request R image M width height Hsz Hw Hh HM)
      as (n & Hreq & Hb); [lia|].
    rewrite Hreq in Hres. apply HR in Hres. rewrite Hres.
    destruct (width >? height) eqn:Hgt; simpl.
    + apply Z.gtb_lt in Hgt. nia.
    + destruct (Z.gtb_spec width height); [discriminate|]. nia.
  - destruct (resize_image_request R image M width height Hsz Hw Hh HM)
      as (n & Hreq & Hb); [lia|].
    rewrite Hreq in Hres. apply HR in Hres. rewrite Hres.
    destruct (width >? height) eqn:Hgt; simpl.
    + apply Z.gtb_lt in Hgt. nia.
    + destruct (Z.gtb_spec width height); [discriminate|]. nia.
Qed.

(** X18. The removal model only sees rasters within the bound: with a
    resampler that returns the size it is asked for, every result that
    [process_image] returns is the removal applied to a raster whose width
    and height are at most [MAX_IMAGE_SIZE], while the raster returned
    beside it is the decoded one. *)
Theorem removal_input_is_within_bound
    (C : Collaborators) (image_bytes : bytes) (w : world)
    (original removed : Image) :
  memo_ok C w ->
  (forall img sz r, Image_resize C img sz = Ok r -> size r = sz) ->
  0 < fst (size original) < 2 ^ 31 -> 0 < snd (size original) < 2 ^ 31 ->
  fst (process_image C image_bytes w) = Ok (Some original, Some removed) ->
  Image_open C image_bytes = Ok original /\
  exists resized : Image,
    resize_image (Image_resize C) original MAX_IMAGE_SIZE = Ok resized /\
    remove C resized = Ok removed /\
    fst (size resized) <= MAX_IMAGE_SIZE /\
    snd (size resized) <= MAX_IMAGE_SIZE.
Proof.
  intros Hok HR Hw Hh Hret.
  destruct (process_image_run C image_bytes w Hok) as (w' & Hrun & _).
  rewrite Hrun in Hret. simpl in Hret.
  destruct (body_cases C image_bytes)
    as [(e & _ & Hv & _)|[(image & e & _ & _ & Hv & _)
       |[(image & resized & e & _ & _ & _ & Hv & _)
        |(image & resized & result & Ho & Hr & Hm & Hv & _)]]];
    rewrite Hv in Hret; try discriminate.
  injection Hret as <- <-.
  split; [exact Ho|]. exists resized.
  split; [exact Hr|]. split; [exact Hm|].
  apply (resize_image_fits (Image_resize C) image resized MAX_IMAGE_SIZE);
    try assumption.
  split; [reflexivity|vm_compute; discriminate].
Qed.

Lemma removal_input_is_within_bound_witness :
  Image_open Demo.working (getvalue Demo.small_png) = Ok Demo.small_raster /\
  exists resized : Image,
    resize_image (Image_resize Demo.working) Demo.small_raster MAX_IMAGE_SIZE
    = Ok resized /\
    remove Demo.working resized = Ok Demo.small_raster /\
    fst (size resized) <= MAX_IMAGE_SIZE /\
    snd (size resized) <= MAX_IMAGE_SIZE.
Proof.
  apply (removal_input_is_within_bound Demo.working (getvalue Demo.small_png)
           empty_world Demo.small_raster Demo.small_raster).
  - apply memo_ok_empty.
  - intros img sz r H. injection H as <-. reflexivity.
  - split; reflexivity.
  - split; reflexivity.
  - vm_compute. reflexivity.
Defined.

(** X19. When Streamlit refuses to display the result, the exception
    reaches the handler of [fix_image]: the original raster is already on
    the page, the result is not, the bar stays at 90, the encoder is not
    invoked, no download button and no completion message appear, the page
    gets the two fixed messages, and the exception goes to the log only. *)
Theorem display_failure_report
    (C : Collaborators) (uploaded_file : UploadedFile) (w : world)
    (original resized removed : Image) (e : exn) :
  memo_ok C w ->
  Image_open C (getvalue uploaded_file) = Ok original ->
  resize_image (Image_resize C) original MAX_IMAGE_SIZE = Ok resized ->
  remove C resized = Ok removed ->
  st_image C original = Ok tt ->
  st_image C removed = Raise e ->
  exists w',
    fix_image C uploaded_file w = (Ok tt, w') /\
    new_events w w'
    = [Sidebar_progress 0; Status_text (Msg "🔄 Reading image...");
       Progress 10; Status_text (Msg "⚙️ Processing image..."); Progress 30;
       Progress 90; Status_text (Msg "📸 Displaying result...");
       Col_image 1 original "Original Image";
       St_error "An unexpected error occurred.";
       Sidebar_error "⚠️ Processing failed.";
       Print_traceback e] /\
    ~ In Encode (new_calls w w').
Proof.
  intros Hok Hopen Hresize Hremove Hshow1 Hshow2.
  destruct (body_success C (getvalue uploaded_file) original resized removed
              Hopen Hresize Hremove) as (Hv & Hev & Hbc).
  destruct (fix_image_run C uploaded_file w Hok)
    as (w' & cs & Hrun & _ & Hshown & Hcs & Hcalls).
  exists w'. split; [exact Hrun|]. split.
  - apply new_events_app. rewrite Hshown, Hv, Hev. simpl.
    rewrite Hshow1, Hshow2. reflexivity.
  - rewrite Hv in Hcalls. simpl in Hcalls.
    rewrite Hshow1, Hshow2, app_nil_r in Hcalls.
    rewrite (new_calls_app w w' cs Hcalls).
    destruct Hcs as [-> | ->]; [intros []|].
    rewrite Hbc. simpl. intros [H|[H|[H|[]]]]; discriminate H.
Qed.

Lemma display_failure_report_witness :
  exists w',
    fix_image Demo.narrow_display Demo.flat_png empty_world = (Ok tt, w') /\
    new_events empty_world w'
    = [Sidebar_progress 0; Status_text (Msg "🔄 Reading image...");
       Progress 10; Status_text (Msg "⚙️ Processing image..."); Progress 30;
       Progress 90; Status_text (Msg "📸 Displaying result...");
       Col_image 1 Demo.flat_raster "Original Image";
       St_error "An unexpected error occurred.";
       Sidebar_error "⚠️ Processing failed.";
       Print_traceback Demo.cannot_lay_out] /\
    ~ In Encode (new_calls empty_world w').
Proof.
  apply (display_failure_report Demo.narrow_display Demo.flat_png empty_world
           Demo.flat_raster Demo.flat_resized Demo.flat_resized
           Demo.cannot_lay_out).
  - apply memo_ok_empty.
  - reflexivity.
  - vm_compute. reflexivity.
  - reflexivity.
  - reflexivity.
  - reflexivity.
Defined.
